(** * Verification model of synchronize-symitar-action

    Shallow embedding of
    - [src/directory-config.ts]: directory registry, install list,
      total-change count, and the licence-key validation loop
      ([validateApiKey]);
    - [src/synchronize.ts] in its two revisions found in the repository:
      [Sync] follows the revision that calls [syncFiles] (unnamed/part_000),
      [SyncLegacy] the one that calls [synchronizeFiles] (unnamed/part_001);
    - [src/main.ts] (unnamed/part_002): the input validation and parsing of
      [run], the configuration it builds, and the outputs or failure it
      reports. *)

From Stdlib Require Import String Ascii List ZArith Bool Lia.
From Stdlib Require Import DecimalString.
Import ListNotations.
Open Scope string_scope.

(* ------------------------------------------------------------------ *)
(** ** Directory configuration (directory-config.ts) *)

Inductive DirectoryType := powerOns | letterFiles | dataFiles | helpFiles.

(** [SymitarSyncDirectory] enum of the external library. *)
Inductive SymitarSyncDirectory := REPWRITERSPECS | LETTERSPECS | DATAFILES | HELPFILES.

Record DirectoryTypeConfig := {
  name : string;
  symitarDirectory : SymitarSyncDirectory;
  defaultPath : string;
  supportsInstall : bool
}.

Definition DIRECTORY_CONFIG (t : DirectoryType) : DirectoryTypeConfig :=
  match t with
  | powerOns =>
      {| name := "PowerOns"; symitarDirectory := REPWRITERSPECS;
         defaultPath := "REPWRITERSPECS/"; supportsInstall := true |}
  | letterFiles =>
      {| name := "LetterFiles"; symitarDirectory := LETTERSPECS;
         defaultPath := "LETTERSPECS/"; supportsInstall := false |}
  | dataFiles =>
      {| name := "DataFiles"; symitarDirectory := DATAFILES;
         defaultPath := "DATAFILES/"; supportsInstall := false |}
  | helpFiles =>
      {| name := "HelpFiles"; symitarDirectory := HELPFILES;
         defaultPath := "HELPFILES/"; supportsInstall := false |}
  end.

(** [getDirectoryConfig] on a typed [DirectoryType]: the validity check
    ([type in DIRECTORY_CONFIG]) always succeeds, so it is a lookup. *)
Definition getDirectoryConfig (t : DirectoryType) : DirectoryTypeConfig :=
  DIRECTORY_CONFIG t.

Definition getInstallList (directoryType : DirectoryType)
    (installPowerOns : list string) : list string :=
  let config := DIRECTORY_CONFIG directoryType in
  if supportsInstall config then installPowerOns else [].

(** The argument object of [calculateTotalChanges]. *)
Record ChangeLists := {
  deployed : list string;
  deleted : list string;
  installed : list string;
  uninstalled : list string
}.

Definition calculateTotalChanges (directoryType : DirectoryType)
    (result : ChangeLists) : nat :=
  let config := DIRECTORY_CONFIG directoryType in
  let baseChanges := length (deployed result) + length (deleted result) in
  if supportsInstall config
  then baseChanges + length (installed result) + length (uninstalled result)
  else baseChanges.

(* ------------------------------------------------------------------ *)
(** ** Effects: thrown errors and an observable event trace *)

(** Error values that the code throws.  [PlainError] is a JavaScript
    [Error] (a failed [fetch], an [AbortError], a transport failure, or
    [new Error(...)] in the orchestrator). *)
Inductive exn :=
| AuthenticationError (message apiKey host : string)
| ConnectionError (message host : string) (port : Z) (isSSL : bool)
    (originalError : exn)
| PlainError (message : string).

Definition is_AuthenticationError (e : exn) : bool :=
  match e with AuthenticationError _ _ _ => true | _ => false end.
Definition is_ConnectionError (e : exn) : bool :=
  match e with ConnectionError _ _ _ _ _ => true | _ => false end.

(** What an observer of the process can see: network calls, timers, and
    the calls made on the transport clients.  Logging is not modelled. *)
Inductive Event :=
| EvSetTimeout (attempt : nat) (ms : Z)
| EvFetch (attempt : nat) (url apiKey : string)
| EvSleep (attempt : nat) (ms : Z)
| EvClearTimeout (attempt : nat)
| EvNewHTTPs (baseUrl : string)
| EvNewSSH (host : string) (port : Z)
| EvIsReady
| EvSyncCall (installList : list string) (isDryRun : bool)
| EvEnd.

Inductive Result (A : Type) := Ok (a : A) | Throw (e : exn).
Arguments Ok {A} a.
Arguments Throw {A} e.

(** An async function body: it appends events to the trace and either
    returns or throws. *)
Definition M (A : Type) := list Event -> Result A * list Event.

Definition ret {A} (a : A) : M A := fun tr => (Ok a, tr).
Definition throw {A} (e : exn) : M A := fun tr => (Throw e, tr).
Definition bind {A B} (m : M A) (k : A -> M B) : M B :=
  fun tr => match m tr with
            | (Ok a, tr') => k a tr'
            | (Throw e, tr') => (Throw e, tr')
            end.
Definition emit (ev : Event) : M unit := fun tr => (Ok tt, (tr ++ [ev])%list).

Notation "x <- m ;; k" := (bind m (fun x => k))
  (at level 61, m at next level, right associativity).
Notation "m ;;; k" := (bind m (fun _ => k))
  (at level 61, right associativity).

(** [try { m } catch (e) { h(e) }] *)
Definition try_catch {A} (m : M A) (h : exn -> M A) : M A :=
  fun tr => match m tr with
            | (Ok a, tr') => (Ok a, tr')
            | (Throw e, tr') => h e tr'
            end.

(** [try { m } finally { fin }]: the finally block always runs; if it
    throws, its error replaces the completion of [m] (ECMAScript
    semantics of [finally]), otherwise [m]'s completion stands. *)
Definition try_finally {A} (m : M A) (fin : M unit) : M A :=
  fun tr => match m tr with
            | (r, tr') =>
                match fin tr' with
                | (Ok _, tr'') => (r, tr'')
                | (Throw e, tr'') => (Throw e, tr'')
                end
            end.

(* ------------------------------------------------------------------ *)
(** ** Licence key validation (validateApiKey) *)

#[local] Set Warnings "-register-all".

(** JSON values as produced by [response.json()]. *)
Inductive json :=
| JNull | JBool (b : bool) | JNum (z : Z) | JStr (s : string)
| JArr (items : list json) | JObj (fields : list (string * json)).

(** Property lookup; [JSON.parse] keeps the last of duplicate keys. *)
Fixpoint prop (k : string) (fields : list (string * json)) : option json :=
  match fields with
  | [] => None
  | (k', v) :: rest =>
      match prop k rest with
      | Some w => Some w
      | None => if String.eqb k k' then Some v else None
      end
  end.

Definition isSubscriptionResponse (data : json) : bool :=
  match data with
  | JObj fs =>
      match prop "isFound" fs, prop "subscriptions" fs with
      | Some (JBool _), Some (JArr _) => true
      | _, _ => false
      end
  | _ => false
  end.

Definition data_isFound (data : json) : bool :=
  match data with
  | JObj fs => match prop "isFound" fs with Some (JBool b) => b | _ => false end
  | _ => false
  end.

Definition data_subscriptions (data : json) : list json :=
  match data with
  | JObj fs => match prop "subscriptions" fs with Some (JArr l) => l | _ => [] end
  | _ => []
  end.

(** Outcome of [response.json()]. *)
Inductive Body := BodyJson (data : json) | BodyReject (message : string).

Record Response := {
  ok : bool;
  status : Z;
  statusText : string;
  body : Body
}.

(** Outcome of one [fetch] call: it resolves with a response, or rejects
    (network error, or [AbortError] when the 30 s timer fires). *)
Inductive FetchOutcome :=
| FetchResolve (r : Response)
| FetchReject (message : string).

(** Process-wide configuration read from the environment. *)
Record LicenseEnv := {
  sstStagePrefix : string;   (* process.env.SST_STAGE_PREFIX || '' *)
  isSandbox : bool           (* process.env.IS_SANDBOX === 'true' *)
}.

Definition API_REQUEST_TIMEOUT_MS : Z := 30000.
Definition MAX_API_RETRIES : nat := 3.

Definition sandbox_part (env : LicenseEnv) : string :=
  if isSandbox env then ".libum-sandbox" else "".

Definition license_url (env : LicenseEnv) : string :=
  "https://" ++ sstStagePrefix env ++ "license" ++ sandbox_part env
  ++ ".libum.io/subscriptionsByApiKey?product=poweron-pipelines".

(** The host named in the [ConnectionError] of the retry loop. *)
Definition connection_error_host (env : LicenseEnv) : string :=
  "license" ++ sandbox_part env ++ ".libum.io".

(** [String.prototype.trim] on the characters a [string] can hold:
    TAB, LF, VT, FF, CR, SPACE and NO-BREAK SPACE. *)
Definition is_js_space (c : ascii) : bool :=
  match nat_of_ascii c with
  | 9 | 10 | 11 | 12 | 13 | 32 | 160 => true
  | _ => false
  end.

Fixpoint trim_start (s : string) : string :=
  match s with
  | EmptyString => EmptyString
  | String c s' => if is_js_space c then trim_start s' else s
  end.

Fixpoint trim_end (s : string) : string :=
  match s with
  | EmptyString => EmptyString
  | String c s' =>
      let t := trim_end s' in
      match t with
      | EmptyString => if is_js_space c then EmptyString else String c EmptyString
      | _ => String c t
      end
  end.

Definition trim (s : string) : string := trim_end (trim_start s).

Definition string_of_Z (z : Z) : string := NilZero.string_of_int (Z.to_int z).

(** The [try] block of one loop iteration.  [Ok true] is the [return]
    after a successful validation. *)
Definition attempt_try (env : LicenseEnv) (apiKey : string)
    (fetch : nat -> FetchOutcome) (attempt : nat) : M bool :=
  emit (EvFetch attempt (license_url env) apiKey) ;;;
  match fetch attempt with
  | FetchReject m => throw (PlainError m)
  | FetchResolve response =>
      if negb (ok response) then
        throw (AuthenticationError
                 ("Failed to validate API key: " ++ string_of_Z (status response)
                  ++ " " ++ statusText response) apiKey "")
      else
        match body response with
        | BodyReject m => throw (PlainError m)
        | BodyJson data =>
            if negb (isSubscriptionResponse data) then
              throw (AuthenticationError
                       "Invalid response format from license server" apiKey "")
            else if negb (data_isFound data) then
              throw (AuthenticationError
                       "Provided API key was not found. Please make sure 'apiKey' is set properly in your workflow."
                       apiKey "")
            else if Nat.eqb (length (data_subscriptions data)) 0 then
              throw (AuthenticationError
                       "No active subscription found for the provided API key."
                       apiKey "")
            else ret true
        end
  end.

(** [Math.min(500 * Math.pow(2, attempt - 1), 10000)] *)
Definition backoff_delay (attempt : nat) : Z :=
  Z.min (500 * 2 ^ (Z.of_nat attempt - 1)) 10000.

(** The [catch] block.  [Ok false] means: fall through to the next
    iteration after the back-off sleep. *)
Definition attempt_catch (env : LicenseEnv) (attempt : nat) (error : exn) : M bool :=
  if is_AuthenticationError error || is_ConnectionError error
     || Nat.leb MAX_API_RETRIES attempt then
    if is_AuthenticationError error || is_ConnectionError error then throw error
    else throw (ConnectionError
                  "Failed to fetch PowerOn Pipelines API key subscription data after multiple attempts"
                  (connection_error_host env) 443 true error)
  else
    emit (EvSleep attempt (backoff_delay attempt)) ;;; ret false.

(** [for (let attempt = start; attempt <= MAX_API_RETRIES; attempt++)],
    with [fuel] the number of iterations left. *)
Fixpoint validate_loop (env : LicenseEnv) (apiKey : string)
    (fetch : nat -> FetchOutcome) (fuel attempt : nat) : M unit :=
  match fuel with
  | O => ret tt
  | S fuel' =>
      emit (EvSetTimeout attempt API_REQUEST_TIMEOUT_MS) ;;;
      done <- try_finally
                (try_catch (attempt_try env apiKey fetch attempt)
                           (attempt_catch env attempt))
                (emit (EvClearTimeout attempt)) ;;
      if done then ret tt
      else validate_loop env apiKey fetch fuel' (S attempt)
  end.

Definition validateApiKey (env : LicenseEnv) (fetch : nat -> FetchOutcome)
    (apiKey : string) : M unit :=
  if String.eqb apiKey "" || String.eqb (trim apiKey) "" then
    throw (AuthenticationError "PowerOn Pipelines API Key is missing" apiKey "")
  else validate_loop env apiKey fetch MAX_API_RETRIES 1.

(* ------------------------------------------------------------------ *)
(** ** Orchestrator (synchronize.ts): shared parts *)

Inductive ConnectionType := https | ssh.
Inductive SyncMode := push | pull | mirror.
Inductive SymitarSyncMode := PUSH | PULL | MIRROR.

(** [getSyncMode]; its [default] branch is unreachable on a typed mode. *)
Definition getSyncMode (mode : SyncMode) : SymitarSyncMode :=
  match mode with push => PUSH | pull => PULL | mirror => MIRROR end.

Record SynchronizeResult := {
  filesDeployed : nat;
  filesDeleted : nat;
  filesInstalled : nat;
  filesUninstalled : nat;
  deployedFiles : list string;
  deletedFiles : list string;
  installedFiles : list string;
  uninstalledFiles : list string
}.

(** Behaviour of the external transport client ([SymitarSSH] or
    [SymitarHTTPs]) during one invocation: whether its constructor
    throws, whether [isReady] rejects, what the synchronize call
    resolves to (or the message it rejects with), and whether [end]
    rejects.  [R] is the response type of the synchronize call. *)
Record Transport (R : Type) := {
  ctor_fails : option string;
  ready_fails : option string;
  sync_result : string + R;
  end_fails : option string
}.
Arguments ctor_fails {R} t.
Arguments ready_fails {R} t.
Arguments sync_result {R} t.
Arguments end_fails {R} t.

(** [new SymitarXXX(...)]: the event is recorded once the instance exists. *)
Definition construct {R} (tp : Transport R) (ev : Event) : M unit :=
  match ctor_fails tp with
  | Some m => throw (PlainError m)
  | None => emit ev
  end.

(** [await client.isReady] *)
Definition await_ready {R} (tp : Transport R) : M unit :=
  emit EvIsReady ;;;
  match ready_fails tp with Some m => throw (PlainError m) | None => ret tt end.

(** [await client.syncFiles(...)] / [await client.synchronizeFiles(...)] *)
Definition call_sync {R} (tp : Transport R) (installList : list string)
    (isDryRun : bool) : M R :=
  emit (EvSyncCall installList isDryRun) ;;;
  match sync_result tp with inl m => throw (PlainError m) | inr r => ret r end.

(** [await client.end()] *)
Definition client_end {R} (tp : Transport R) : M unit :=
  emit EvEnd ;;;
  match end_fails tp with Some m => throw (PlainError m) | None => ret tt end.

(** [!config.symitarAppPort] for an optional number (NaN never reaches
    this code: the caller parses and range-checks the port). *)
Definition port_falsy (p : option Z) : bool :=
  match p with None => true | Some z => Z.eqb z 0 end.

Definition is_new_client (e : Event) : bool :=
  match e with EvNewHTTPs _ | EvNewSSH _ _ => true | _ => false end.

(** Number of transport clients constructed in a trace. *)
Definition clients_constructed (tr : list Event) : nat :=
  length (filter is_new_client tr).

Definition ends (tr : list Event) : nat :=
  length (filter (fun e => match e with EvEnd => true | _ => false end) tr).

Definition fetches (tr : list Event) : nat :=
  length (filter (fun e => match e with EvFetch _ _ _ => true | _ => false end) tr).

(* ------------------------------------------------------------------ *)
(** ** Orchestrator, revision calling [syncFiles] (unnamed/part_000) *)

Module Sync.

Inductive SyncMethod := sftp | rsync.
Inductive SymitarSyncTransport := SFTP | RSYNC.

Definition getSyncTransport (method : SyncMethod) : SymitarSyncTransport :=
  match method with sftp => SFTP | rsync => RSYNC end.

Record SynchronizeConfig := {
  symitarHostname : string;
  symNumber : Z;
  symitarUserNumber : string;
  symitarUserPassword : string;
  sshUsername : string;
  sshPassword : string;
  sshPort : Z;
  symitarAppPort : option Z;
  apiKey : string;
  localDirectoryPath : string;
  directoryType : DirectoryType;
  connectionType : ConnectionType;
  syncMode : SyncMode;
  syncMethod : SyncMethod;
  sftpConcurrency : Z;
  isDryRun : bool;
  installPowerOnList : list string;
  validateIgnoreList : list string;
  debug : bool;
  logPrefix : string
}.

Record SyncFilesOptions := {
  transport : SymitarSyncTransport;
  concurrency : Z;
  powerOn_installList : list string;
  powerOn_validateIgnoreList : list string
}.

(** [SyncFilesResult]: [installed] and [uninstalled] are optional. *)
Record SyncFilesResult := {
  synced : list string;
  deleted : list string;
  installed : option (list string);
  uninstalled : option (list string)
}.

(** [x?.length ?? 0] and [x ?? []] *)
Definition opt_length (l : option (list string)) : nat :=
  match l with Some l => length l | None => 0 end.
Definition opt_list (l : option (list string)) : list string :=
  match l with Some l => l | None => [] end.

Section Orchestrator.

Variable env : LicenseEnv.
Variable fetch : nat -> FetchOutcome.
Variable tp : Transport SyncFilesResult.

Definition synchronizeViaHTTPs (config : SynchronizeConfig)
    (dir : SymitarSyncDirectory) (mode : SymitarSyncMode)
    (syncOptions : SyncFilesOptions) : M SyncFilesResult :=
  if port_falsy (symitarAppPort config) then
    throw (PlainError "symitar-app-port is required when using HTTPS connection")
  else
    let port := match symitarAppPort config with Some p => p | None => 0%Z end in
    let baseUrl := "https://" ++ symitarHostname config ++ ":" ++ string_of_Z port in
    construct tp (EvNewHTTPs baseUrl) ;;;
    try_finally
      (call_sync tp (powerOn_installList syncOptions) (isDryRun config))
      (client_end tp).

Definition synchronizeViaSSH (config : SynchronizeConfig)
    (dir : SymitarSyncDirectory) (mode : SymitarSyncMode)
    (syncOptions : SyncFilesOptions) : M SyncFilesResult :=
  construct tp (EvNewSSH (symitarHostname config) (sshPort config)) ;;;
  try_finally
    (await_ready tp ;;;
     call_sync tp (powerOn_installList syncOptions) (isDryRun config))
    (client_end tp).

Definition to_result (result : SyncFilesResult) : SynchronizeResult :=
  {| filesDeployed := length (synced result);
     filesDeleted := length (deleted result);
     filesInstalled := opt_length (installed result);
     filesUninstalled := opt_length (uninstalled result);
     deployedFiles := synced result;
     deletedFiles := deleted result;
     installedFiles := opt_list (installed result);
     uninstalledFiles := opt_list (uninstalled result) |}.

Definition synchronizeToSymitar (config : SynchronizeConfig) : M SynchronizeResult :=
  validateApiKey env fetch (apiKey config) ;;;
  let directoryConfig := getDirectoryConfig (directoryType config) in
  let installList := getInstallList (directoryType config) (installPowerOnList config) in
  let mode := getSyncMode (syncMode config) in
  let syncTransport := getSyncTransport (syncMethod config) in
  let syncOptions := {| transport := syncTransport;
                        concurrency := sftpConcurrency config;
                        powerOn_installList := installList;
                        powerOn_validateIgnoreList := validateIgnoreList config |} in
  result <- match connectionType config with
            | https => synchronizeViaHTTPs config (symitarDirectory directoryConfig) mode syncOptions
            | ssh => synchronizeViaSSH config (symitarDirectory directoryConfig) mode syncOptions
            end ;;
  ret (to_result result).

End Orchestrator.

End Sync.

(* ------------------------------------------------------------------ *)
(** ** Orchestrator, revision calling [synchronizeFiles] (unnamed/part_001) *)

Module SyncLegacy.

Record SynchronizeConfig := {
  symitarHostname : string;
  symNumber : Z;
  symitarUserNumber : string;
  symitarUserPassword : string;
  sshUsername : string;
  sshPassword : string;
  sshPort : Z;
  symitarAppPort : option Z;
  apiKey : string;
  localDirectoryPath : string;
  directoryType : DirectoryType;
  connectionType : ConnectionType;
  syncMode : SyncMode;
  isDryRun : bool;
  installPowerOnList : list string;
  validateIgnoreList : list string;
  debug : bool;
  logPrefix : string
}.

(** [SymitarSyncResponse]: four lists, all present. *)
Record SymitarSyncResponse := {
  deployed : list string;
  deleted : list string;
  installed : list string;
  uninstalled : list string
}.

Section Orchestrator.

Variable env : LicenseEnv.
Variable fetch : nat -> FetchOutcome.
Variable tp : Transport SymitarSyncResponse.

Definition synchronizeViaHTTPs (config : SynchronizeConfig)
    (dir : SymitarSyncDirectory) (mode : SymitarSyncMode)
    (installList : list string) : M SymitarSyncResponse :=
  if port_falsy (symitarAppPort config) then
    throw (PlainError "symitar-app-port is required when using HTTPS connection")
  else
    let port := match symitarAppPort config with Some p => p | None => 0%Z end in
    let baseUrl := "https://" ++ symitarHostname config ++ ":" ++ string_of_Z port in
    construct tp (EvNewHTTPs baseUrl) ;;;
    try_finally
      (call_sync tp installList (isDryRun config))
      (client_end tp).

Definition synchronizeViaSSH (config : SynchronizeConfig)
    (dir : SymitarSyncDirectory) (mode : SymitarSyncMode)
    (installList : list string) : M SymitarSyncResponse :=
  construct tp (EvNewSSH (symitarHostname config) (sshPort config)) ;;;
  try_finally
    (await_ready tp ;;;
     call_sync tp installList (isDryRun config))
    (client_end tp).

Definition to_result (result : SymitarSyncResponse) : SynchronizeResult :=
  {| filesDeployed := length (deployed result);
     filesDeleted := length (deleted result);
     filesInstalled := length (installed result);
     filesUninstalled := length (uninstalled result);
     deployedFiles := deployed result;
     deletedFiles := deleted result;
     installedFiles := installed result;
     uninstalledFiles := uninstalled result |}.

Definition synchronizeToSymitar (config : SynchronizeConfig) : M SynchronizeResult :=
  validateApiKey env fetch (apiKey config) ;;;
  let directoryConfig := getDirectoryConfig (directoryType config) in
  let installList := getInstallList (directoryType config) (installPowerOnList config) in
  let mode := getSyncMode (syncMode config) in
  result <- match connectionType config with
            | https => synchronizeViaHTTPs config (symitarDirectory directoryConfig) mode installList
            | ssh => synchronizeViaSSH config (symitarDirectory directoryConfig) mode installList
            end ;;
  ret (to_result result).

End Orchestrator.

End SyncLegacy.

(* ------------------------------------------------------------------ *)
(** ** Directory lookups by name (directory-config.ts) *)

(** The keys of [DIRECTORY_CONFIG]. *)
Definition directoryTypeName (t : DirectoryType) : string :=
  match t with
  | powerOns => "powerOns"
  | letterFiles => "letterFiles"
  | dataFiles => "dataFiles"
  | helpFiles => "helpFiles"
  end.

(** The own keys of [DIRECTORY_CONFIG] in insertion order, the order of
    [Object.keys(DIRECTORY_CONFIG)]. *)
Definition DIRECTORY_TYPES : list DirectoryType :=
  [powerOns; letterFiles; dataFiles; helpFiles].

Definition directoryTypeOfString (s : string) : option DirectoryType :=
  find (fun t => String.eqb (directoryTypeName t) s) DIRECTORY_TYPES.

(** Property names that the object literal [DIRECTORY_CONFIG] inherits
    from [Object.prototype] (Node.js); the [in] operator finds them too. *)
Definition OBJECT_PROTOTYPE_KEYS : list string :=
  ["constructor"; "__defineGetter__"; "__defineSetter__"; "hasOwnProperty";
   "__lookupGetter__"; "__lookupSetter__"; "isPrototypeOf";
   "propertyIsEnumerable"; "toString"; "valueOf"; "__proto__";
   "toLocaleString"].

(** [type in DIRECTORY_CONFIG]: an own key, or a key of the prototype
    chain. *)
Definition isValidDirectoryType (type : string) : bool :=
  match directoryTypeOfString type with
  | Some _ => true
  | None => existsb (String.eqb type) OBJECT_PROTOTYPE_KEYS
  end.

(** What [DIRECTORY_CONFIG[type]] yields once [type in DIRECTORY_CONFIG]
    holds: an own entry, or the member of [Object.prototype] of that
    name (a function, or the prototype itself for [__proto__]). *)
Inductive ConfigLookup :=
| OwnEntry (config : DirectoryTypeConfig)
| InheritedMember (key : string).

Module ByName.

(** [getDirectoryConfig(type: string)] *)
Definition getDirectoryConfig (type : string) : Result ConfigLookup :=
  if negb (isValidDirectoryType type) then
    let validTypes := String.concat ", " (map directoryTypeName DIRECTORY_TYPES) in
    Throw (PlainError ("Invalid directory type: " ++ type ++ ". Must be one of: "
                       ++ validTypes))
  else
    match directoryTypeOfString type with
    | Some t => Ok (OwnEntry (DIRECTORY_CONFIG t))
    | None => Ok (InheritedMember type)
    end.

End ByName.


(* ------------------------------------------------------------------ *)
(** ** Action entry point (main.ts) *)

(** [s.split(',')] *)
Fixpoint split_comma (s : string) : list string :=
  match s with
  | EmptyString => [EmptyString]
  | String c s' =>
      let rest := split_comma s' in
      if Ascii.eqb c ","%char then EmptyString :: rest
      else match rest with
           | x :: r => String c x :: r
           | [] => [String c EmptyString]
           end
  end.

(** [input.split(',').map((f) => f.trim()).filter((f) => f.length > 0)] *)
Definition parse_list (input : string) : list string :=
  filter (fun f => Nat.ltb 0 (String.length f)) (map trim (split_comma input)).

Definition is_decimal_digit (c : ascii) : bool :=
  Nat.leb 48 (nat_of_ascii c) && Nat.leb (nat_of_ascii c) 57.

(** The longest prefix of decimal digits, read into [acc]; [None] when
    there is none ([seen] records whether a digit was read). *)
Fixpoint digits_value (s : string) (acc : Z) (seen : bool) : option Z :=
  match s with
  | String c s' =>
      if is_decimal_digit c
      then digits_value s' (acc * 10 + Z.of_nat (nat_of_ascii c - 48)) true
      else if seen then Some acc else None
  | EmptyString => if seen then Some acc else None
  end.

(** [parseInt(s, 10)]: leading white space is skipped, then an optional
    sign, then the longest run of decimal digits; [None] is [NaN].  The
    value is the exact integer (JavaScript rounds past 2^53, which leaves
    the comparisons with the small bounds below unchanged). *)
Definition parseInt10 (s : string) : option Z :=
  match trim_start s with
  | String c rest =>
      if Ascii.eqb c "-"%char then option_map Z.opp (digits_value rest 0 false)
      else if Ascii.eqb c "+"%char then digits_value rest 0 false
      else digits_value (String c rest) 0 false
  | EmptyString => None
  end.

(** [!(isNaN(x) || x < lo || x > hi)] for [x = parseInt(...)]. *)
Definition in_range (lo hi : Z) (x : option Z) : bool :=
  match x with Some z => Z.leb lo z && Z.leb z hi | None => false end.

(** [/^[a-zA-Z0-9.-]+$/] *)
Definition is_hostname_char (c : ascii) : bool :=
  let n := nat_of_ascii c in
  (Nat.leb 97 n && Nat.leb n 122) || (Nat.leb 65 n && Nat.leb n 90)
  || is_decimal_digit c || Nat.eqb n 46 || Nat.eqb n 45.

Definition hostname_matches (s : string) : bool :=
  negb (String.eqb s "") && forallb is_hostname_char (list_ascii_of_string s).

(** The values [core.getInput] returned for the action's inputs (the
    library trims them and refuses empty required inputs before [run]
    reaches its own checks). *)
Record ActionInputs := {
  in_directoryType : string;
  in_localDirectoryPath : string;
  in_connectionType : string;
  in_syncMode : string;
  in_dryRun : string;
  in_symitarHostname : string;
  in_symitarAppPort : string;
  in_sshUsername : string;
  in_sshPassword : string;
  in_sshPort : string;
  in_symNumber : string;
  in_symitarUserNumber : string;
  in_symitarUserPassword : string;
  in_apiKey : string;
  in_installPowerOnList : string;
  in_validateIgnoreList : string;
  in_debug : string
}.

(** The values [run] derives from its inputs in its validation steps. *)
Record ParsedInputs := {
  p_directoryType : string;
  p_connectionType : ConnectionType;
  p_syncMode : SyncMode;
  p_sshPort : Z;
  p_symitarAppPort : option Z;
  p_symNumber : Z
}.

Definition parse_connection_type (s : string) : option ConnectionType :=
  if String.eqb s "https" then Some https
  else if String.eqb s "ssh" then Some ssh
  else None.

Definition parse_sync_mode (s : string) : option SyncMode :=
  if String.eqb s "push" then Some push
  else if String.eqb s "pull" then Some pull
  else if String.eqb s "mirror" then Some mirror
  else None.

Definition Z_or_0 (x : option Z) : Z := match x with Some z => z | None => 0%Z end.

(** The validation steps of [run], in the order of the source, up to the
    call of [getDirectoryConfig]. *)
Definition validate_inputs (inp : ActionInputs) : Result ParsedInputs :=
  let directoryTypeInput := in_directoryType inp in
  let connectionTypeInput := in_connectionType inp in
  let syncModeInput := in_syncMode inp in
  let symitarHostname := in_symitarHostname inp in
  let symitarAppPortInput := in_symitarAppPort inp in
  let sshPortInput := if String.eqb (in_sshPort inp) "" then "22" else in_sshPort inp in
  let symNumberInput := in_symNumber inp in
  if negb (isValidDirectoryType directoryTypeInput) then
    Throw (PlainError ("Invalid directory type: " ++ directoryTypeInput
             ++ ". Must be one of: powerOns, letterFiles, dataFiles, helpFiles"))
  else
  match parse_connection_type connectionTypeInput with
  | None =>
      Throw (PlainError ("Invalid connection type: " ++ connectionTypeInput
                         ++ ". Must be 'https' or 'ssh'"))
  | Some connectionType =>
  match parse_sync_mode syncModeInput with
  | None =>
      Throw (PlainError ("Invalid sync mode: " ++ syncModeInput
                         ++ ". Must be 'push', 'pull', or 'mirror'"))
  | Some syncMode =>
  if negb (hostname_matches symitarHostname) then
    Throw (PlainError ("Invalid hostname format: " ++ symitarHostname))
  else
  let sshPort := parseInt10 sshPortInput in
  if negb (in_range 1 65535 sshPort) then
    Throw (PlainError ("Invalid SSH port: " ++ sshPortInput ++ ". Must be between 1-65535"))
  else
  let appPort : Result (option Z) :=
    match connectionType with
    | https =>
        if String.eqb symitarAppPortInput "" then
          Throw (PlainError "symitar-app-port is required when connection-type is https")
        else
          let p := parseInt10 symitarAppPortInput in
          if negb (in_range 1 65535 p) then
            Throw (PlainError ("Invalid Symitar app port: " ++ symitarAppPortInput
                               ++ ". Must be between 1-65535"))
          else Ok p
    | ssh => Ok None
    end in
  match appPort with
  | Throw e => Throw e
  | Ok symitarAppPort =>
  let symNumber := parseInt10 symNumberInput in
  if negb (in_range 0 9999 symNumber) then
    Throw (PlainError ("Invalid sym number: " ++ symNumberInput ++ ". Must be between 0-9999"))
  else
  Ok {| p_directoryType := directoryTypeInput;
        p_connectionType := connectionType;
        p_syncMode := syncMode;
        p_sshPort := Z_or_0 sshPort;
        p_symitarAppPort := symitarAppPort;
        p_symNumber := Z_or_0 symNumber |}
  end end end.






(* ------------------------------------------------------------------ *)
(** ** Event counts *)

Definition count_events (p : Event -> bool) (tr : list Event) : nat :=
  length (filter p tr).

Definition timers_set (tr : list Event) : nat :=
  count_events (fun e => match e with EvSetTimeout _ _ => true | _ => false end) tr.

Definition timers_cleared (tr : list Event) : nat :=
  count_events (fun e => match e with EvClearTimeout _ => true | _ => false end) tr.

Definition sleeps (tr : list Event) : nat :=
  count_events (fun e => match e with EvSleep _ _ => true | _ => false end) tr.

Definition is_sync_call (e : Event) : bool :=
  match e with EvSyncCall _ _ => true | _ => false end.

Definition is_validation_event (e : Event) : bool :=
  match e with
  | EvSetTimeout _ _ | EvFetch _ _ _ | EvSleep _ _ | EvClearTimeout _ => true
  | _ => false
  end.

(* ------------------------------------------------------------------ *)
(** ** Classification of one fetch outcome *)

(** The message of a failure the [catch] block retries: [fetch] rejected,
    or the body of a success response could not be read. *)
Definition retry_message (o : FetchOutcome) : option string :=
  match o with
  | FetchReject m => Some m
  | FetchResolve r =>
      if ok r then match body r with BodyReject m => Some m | BodyJson _ => None end
      else None
  end.

(** Result of the [try] block of one iteration. *)
Definition attempt_outcome (env : LicenseEnv) (apiKey : string)
    (fetch : nat -> FetchOutcome) (attempt : nat) : Result bool :=
  fst (attempt_try env apiKey fetch attempt []).

Definition is_blank (apiKey : string) : bool :=
  String.eqb apiKey "" || String.eqb (trim apiKey) "".

Definition after_catch (env : LicenseEnv) (e : exn) : exn :=
  if is_AuthenticationError e || is_ConnectionError e then e
  else ConnectionError
         "Failed to fetch PowerOn Pipelines API key subscription data after multiple attempts"
         (connection_error_host env) 443 true e.

Definition no_transport_event (l : list Event) : Prop :=
  clients_constructed l = 0 /\ ends l = 0.

(** What the caller of a [try { ... } finally { await client.end() }]
    block sees, given the completion of the [try] block. *)
Definition after_teardown {A} (end_result : option string) (r : Result A) : Result A :=
  match end_result with Some m => Throw (PlainError m) | None => r end.

(** Completion of the [try] block of the HTTPS path and of the SSH path. *)
Definition https_try_result {R} (tp : Transport R) : Result R :=
  match sync_result tp with inl m => Throw (PlainError m) | inr r => Ok r end.

Definition ssh_try_result {R} (tp : Transport R) : Result R :=
  match ready_fails tp with
  | Some m => Throw (PlainError m)
  | None => https_try_result tp
  end.

Definition lift_result {A B} (f : A -> B) (r : Result A) : Result B :=
  match r with Ok a => Ok (f a) | Throw e => Throw e end.

(** The argument [main.ts] passes to [calculateTotalChanges]: the four
    lists of the result of [synchronizeToSymitar]. *)
Definition result_changes (result : SynchronizeResult) : ChangeLists :=
  {| deployed := deployedFiles result;
     deleted := deletedFiles result;
     installed := installedFiles result;
     uninstalled := uninstalledFiles result |}.

(** The transport part of an invocation once the client is about to be
    constructed: either the constructor throws (no event), or exactly one
    client is built, [end] is called exactly once, and the caller sees the
    completion of the [try] block passed through [after_teardown]. *)
Definition teardown_tail {R} (to_res : R -> SynchronizeResult) (tp : Transport R)
    (l : list Event) (res : Result SynchronizeResult) (try_result : Result R) : Prop :=
  match ctor_fails tp with
  | Some m => l = [] /\ res = Throw (PlainError m)
  | None => clients_constructed l = 1 /\ ends l = 1 /\
            res = lift_result to_res (after_teardown (end_fails tp) try_result)
  end.

(** A string that is empty or starts with a character [trim] keeps. *)
Definition starts_non_space (s : string) : Prop :=
  match s with String c _ => is_js_space c = false | EmptyString => True end.

(** The errors [validateApiKey] can reject with: an [AuthenticationError]
    carrying the key and an empty host, or a [ConnectionError] naming the
    licence host on port 443 over SSL; never a plain [Error]. *)
Definition error_kind_ok (env : LicenseEnv) (apiKey : string) (r : Result unit) : Prop :=
  match r with
  | Ok _ => True
  | Throw (AuthenticationError _ k h) => k = apiKey /\ h = ""
  | Throw (ConnectionError _ h p s _) =>
      h = connection_error_host env /\ p = 443%Z /\ s = true
  | Throw (PlainError _) => False
  end.

(* ------------------------------------------------------------------ *)
(** ** Concrete inputs used by the examples below *)

(** The outcome used in the test plan of [calculateTotalChanges]. *)
Definition example_outcome : ChangeLists :=
  {| deployed := ["A"; "B"]; deleted := ["C"];
     installed := ["A"]; uninstalled := ["D"; "E"] |}.

Definition env_production : LicenseEnv :=
  {| sstStagePrefix := ""; isSandbox := false |}.
Definition env_dev_stage : LicenseEnv :=
  {| sstStagePrefix := "dev-"; isSandbox := false |}.

Definition fetch_network_error : nat -> FetchOutcome :=
  fun _ => FetchReject "Network error".

Definition response_401 : Response :=
  {| ok := false; status := 401; statusText := "Unauthorized";
     body := BodyReject "Unexpected end of JSON input" |}.

(** Two network errors, then HTTP 401 on the third attempt. *)
Definition fetch_401_third : nat -> FetchOutcome :=
  fun n => if Nat.eqb n 3 then FetchResolve response_401 else FetchReject "Network error".

Definition fetch_401 : nat -> FetchOutcome := fun _ => FetchResolve response_401.

Definition fetch_active : nat -> FetchOutcome :=
  fun _ => FetchResolve
    {| ok := true; status := 200; statusText := "OK";
       body := BodyJson (JObj [("isFound", JBool true);
                               ("subscriptions",
                                JArr [JObj [("id", JStr "123"); ("status", JStr "active")]])]) |}.

(** First attempt fails on the network, the second succeeds. *)
Definition fetch_retry_then_active : nat -> FetchOutcome :=
  fun n => if Nat.eqb n 1 then FetchReject "Network error" else fetch_active n.

Definition legacy_config (t : DirectoryType) (c : ConnectionType)
    (port : option Z) (key : string) : SyncLegacy.SynchronizeConfig :=
  {| SyncLegacy.symitarHostname := "symitar.example.com";
     SyncLegacy.symNumber := 627;
     SyncLegacy.symitarUserNumber := "1";
     SyncLegacy.symitarUserPassword := "questpass";
     SyncLegacy.sshUsername := "testuser";
     SyncLegacy.sshPassword := "testpass";
     SyncLegacy.sshPort := 22;
     SyncLegacy.symitarAppPort := port;
     SyncLegacy.apiKey := key;
     SyncLegacy.localDirectoryPath := "./letters/";
     SyncLegacy.directoryType := t;
     SyncLegacy.connectionType := c;
     SyncLegacy.syncMode := push;
     SyncLegacy.isDryRun := false;
     SyncLegacy.installPowerOnList := ["FILE1.PO"];
     SyncLegacy.validateIgnoreList := [];
     SyncLegacy.debug := false;
     SyncLegacy.logPrefix := "[Test]" |}.

Definition sync_config (t : DirectoryType) (c : ConnectionType)
    (port : option Z) (key : string) : Sync.SynchronizeConfig :=
  {| Sync.symitarHostname := "symitar.example.com";
     Sync.symNumber := 627;
     Sync.symitarUserNumber := "1";
     Sync.symitarUserPassword := "questpass";
     Sync.sshUsername := "testuser";
     Sync.sshPassword := "testpass";
     Sync.sshPort := 22;
     Sync.symitarAppPort := port;
     Sync.apiKey := key;
     Sync.localDirectoryPath := "./letters/";
     Sync.directoryType := t;
     Sync.connectionType := c;
     Sync.syncMode := push;
     Sync.syncMethod := Sync.sftp;
     Sync.sftpConcurrency := 4;
     Sync.isDryRun := false;
     Sync.installPowerOnList := ["FILE1.PO"];
     Sync.validateIgnoreList := [];
     Sync.debug := false;
     Sync.logPrefix := "[Test]" |}.

(** A transport outcome that reports installed/uninstalled files. *)
Definition legacy_response : SyncLegacy.SymitarSyncResponse :=
  {| SyncLegacy.deployed := ["NOTICE.LTR"]; SyncLegacy.deleted := [];
     SyncLegacy.installed := ["NOTICE.LTR"]; SyncLegacy.uninstalled := ["OLD.LTR"] |}.

Definition sync_response : Sync.SyncFilesResult :=
  {| Sync.synced := ["NOTICE.LTR"]; Sync.deleted := [];
     Sync.installed := Some ["NOTICE.LTR"]; Sync.uninstalled := None |}.

Definition transport_with {R} (r : R) (end_result : option string) : Transport R :=
  {| ctor_fails := None; ready_fails := None; sync_result := inr r;
     end_fails := end_result |}.

(** A found key whose only subscription has the status "cancelled". *)
Definition cancelled_data : json :=
  JObj [("isFound", JBool true);
        ("subscriptions", JArr [JObj [("id", JStr "7"); ("status", JStr "cancelled")]])].

Definition cancelled_response : Response :=
  {| ok := true; status := 200; statusText := "OK"; body := BodyJson cancelled_data |}.

Definition fetch_cancelled_subscription : nat -> FetchOutcome :=
  fun _ => FetchResolve cancelled_response.

(** An ok response whose key is not found, after one network error. *)
Definition not_found_data : json :=
  JObj [("isFound", JBool false); ("subscriptions", JArr [])].

Definition not_found_response : Response :=
  {| ok := true; status := 200; statusText := "OK"; body := BodyJson not_found_data |}.

Definition fetch_retry_then_not_found : nat -> FetchOutcome :=
  fun n => if Nat.eqb n 1 then FetchReject "Network error" else FetchResolve not_found_response.

Definition action_inputs (dt conn appPort sshPort : string) : ActionInputs :=
  {| in_directoryType := dt;
     in_localDirectoryPath := "";
     in_connectionType := conn;
     in_syncMode := "push";
     in_dryRun := "false";
     in_symitarHostname := "symitar.example.com";
     in_symitarAppPort := appPort;
     in_sshUsername := "testuser";
     in_sshPassword := "testpass";
     in_sshPort := sshPort;
     in_symNumber := "627";
     in_symitarUserNumber := "1";
     in_symitarUserPassword := "questpass";
     in_apiKey := "test-api-key";
     in_installPowerOnList := " FILE1.PO, ,FILE2.PO ";
     in_validateIgnoreList := "";
     in_debug := "false" |}.


(* ------------------------------------------------------------------ *)
(** * Lemmas on the licence validation loop *)

Section ValidateLemmas.

Variable env : LicenseEnv.
Variable apiKey : string.
Variable fetch : nat -> FetchOutcome.

Lemma attempt_try_trace : forall attempt tr,
  attempt_try env apiKey fetch attempt tr =
  (attempt_outcome env apiKey fetch attempt,
   tr ++ [EvFetch attempt (license_url env) apiKey])%list.
Proof.
  intros attempt tr. unfold attempt_outcome, attempt_try, bind, emit.
  simpl. destruct (fetch attempt) as [r|m]; [|reflexivity].
  destruct (ok r); simpl; [|reflexivity].
  destruct (body r) as [data|m]; [|reflexivity].
  destruct (negb (isSubscriptionResponse data)); [reflexivity|].
  destruct (negb (data_isFound data)); [reflexivity|].
  destruct (Nat.eqb (length (data_subscriptions data)) 0); reflexivity.
Qed.

Local Ltac pick := first [ left; reflexivity
                         | right; left; eexists; reflexivity
                         | right; right; eexists; reflexivity ].

Lemma attempt_outcome_cases : forall attempt,
  attempt_outcome env apiKey fetch attempt = Ok true \/
  (exists m, attempt_outcome env apiKey fetch attempt
             = Throw (AuthenticationError m apiKey "")) \/
  (exists m, attempt_outcome env apiKey fetch attempt = Throw (PlainError m)).
Proof.
  intros attempt. unfold attempt_outcome, attempt_try, bind, emit.
  simpl.
  destruct (fetch attempt) as [r|m]; [|pick].
  destruct (ok r); simpl; [|pick].
  destruct (body r) as [data|m]; [|pick].
  destruct (negb (isSubscriptionResponse data)); [pick|].
  destruct (negb (data_isFound data)); [pick|].
  destruct (Nat.eqb (length (data_subscriptions data)) 0); pick.
Qed.

Lemma attempt_outcome_retry : forall attempt m,
  retry_message (fetch attempt) = Some m ->
  attempt_outcome env apiKey fetch attempt = Throw (PlainError m).
Proof.
  intros attempt m H. unfold attempt_outcome, attempt_try, bind, emit.
  simpl. unfold retry_message in H.
  destruct (fetch attempt) as [r|m']; simpl in *; [|congruence].
  destruct (ok r); simpl in *; [|discriminate].
  destruct (body r); simpl in *; congruence.
Qed.

Lemma attempt_outcome_not_ok : forall attempt r,
  fetch attempt = FetchResolve r -> ok r = false ->
  attempt_outcome env apiKey fetch attempt =
  Throw (AuthenticationError
           ("Failed to validate API key: " ++ string_of_Z (status r)
            ++ " " ++ statusText r) apiKey "").
Proof.
  intros attempt r Hf Hok. unfold attempt_outcome, attempt_try, bind, emit.
  simpl. rewrite Hf, Hok. reflexivity.
Qed.


(** One iteration of the [for] loop. *)
Lemma validate_loop_step : forall fuel attempt tr,
  validate_loop env apiKey fetch (S fuel) attempt tr =
  let pre := (tr ++ [EvSetTimeout attempt API_REQUEST_TIMEOUT_MS;
                     EvFetch attempt (license_url env) apiKey])%list in
  match attempt_outcome env apiKey fetch attempt with
  | Ok true => (Ok tt, pre ++ [EvClearTimeout attempt])%list
  | Ok false => validate_loop env apiKey fetch fuel (S attempt)
                  (pre ++ [EvClearTimeout attempt])%list
  | Throw e =>
      if is_AuthenticationError e || is_ConnectionError e
         || Nat.leb MAX_API_RETRIES attempt
      then (Throw (after_catch env e), pre ++ [EvClearTimeout attempt])%list
      else validate_loop env apiKey fetch fuel (S attempt)
             (pre ++ [EvSleep attempt (backoff_delay attempt);
                      EvClearTimeout attempt])%list
  end.
Proof.
  intros fuel attempt tr. cbn [validate_loop].
  unfold bind at 1, emit at 1. unfold bind at 1, try_finally, try_catch.
  rewrite attempt_try_trace. cbv beta iota zeta.
  destruct (attempt_outcome env apiKey fetch attempt) as [[|]|e];
    cbv beta iota zeta.
  - unfold emit, ret. rewrite <- !app_assoc. reflexivity.
  - unfold emit. rewrite <- !app_assoc. reflexivity.
  - unfold attempt_catch, after_catch.
    destruct (is_AuthenticationError e || is_ConnectionError e
              || Nat.leb MAX_API_RETRIES attempt) eqn:Hc.
    + destruct (is_AuthenticationError e || is_ConnectionError e);
        unfold throw, emit; rewrite <- !app_assoc; reflexivity.
    + unfold bind, emit, ret. cbv beta iota zeta.
      rewrite <- !app_assoc. reflexivity.
Qed.

Lemma attempt_outcome_retry_ex : forall attempt,
  retry_message (fetch attempt) <> None ->
  exists m, attempt_outcome env apiKey fetch attempt = Throw (PlainError m).
Proof.
  intros attempt H. destruct (retry_message (fetch attempt)) as [m|] eqn:E;
    [|congruence].
  exists m. apply attempt_outcome_retry; assumption.
Qed.


(** The loop only appends validation events; every back-off sleep it
    records belongs to an attempt at or after the one it starts from. *)
Lemma validate_loop_extends : forall fuel attempt tr,
  exists l, snd (validate_loop env apiKey fetch fuel attempt tr) = (tr ++ l)%list
    /\ (forall k d, In (EvSleep k d) l -> (attempt <= k)%nat)
    /\ no_transport_event l.
Proof.
  unfold no_transport_event.
  induction fuel as [|fuel IH]; intros attempt tr.
  - exists []. simpl. rewrite app_nil_r. repeat split; try reflexivity.
    intros k d [].
  - rewrite validate_loop_step. cbv zeta.
    destruct (attempt_outcome env apiKey fetch attempt) as [[|]|e].
    + eexists. split; [simpl snd; rewrite <- !app_assoc; reflexivity|]. split.
      * intros k d Hin. simpl in Hin. intuition discriminate.
      * split; reflexivity.
    + match goal with |- context [validate_loop _ _ _ _ ?a ?t] =>
          destruct (IH a t) as (l & Hl & Hs & Hc & He) end.
      eexists. split; [rewrite Hl; rewrite <- !app_assoc; reflexivity|]. split.
      * intros k d Hin. simpl in Hin.
        destruct Hin as [Hin|[Hin|[Hin|Hin]]]; try discriminate.
        apply Hs in Hin. lia.
      * simpl. split; assumption.
    + destruct (is_AuthenticationError e || is_ConnectionError e
                || Nat.leb MAX_API_RETRIES attempt).
      * eexists. split; [simpl snd; rewrite <- !app_assoc; reflexivity|]. split.
        -- intros k d Hin. simpl in Hin. intuition discriminate.
        -- split; reflexivity.
      * match goal with |- context [validate_loop _ _ _ _ ?a ?t] =>
          destruct (IH a t) as (l & Hl & Hs & Hc & He) end.
        eexists. split; [rewrite Hl; rewrite <- !app_assoc; reflexivity|]. split.
        -- intros k d Hin. simpl in Hin.
           destruct Hin as [Hin|[Hin|[Hin|[Hin|Hin]]]]; try discriminate.
           ++ injection Hin as <- _. lia.
           ++ apply Hs in Hin. lia.
        -- simpl. split; assumption.
Qed.

Lemma validate_loop_prefix : forall fuel attempt tr,
  exists l, snd (validate_loop env apiKey fetch (S fuel) attempt tr)
            = (tr ++ [EvSetTimeout attempt API_REQUEST_TIMEOUT_MS;
                      EvFetch attempt (license_url env) apiKey] ++ l)%list
    /\ (forall k d, In (EvSleep k d) l -> (attempt <= k)%nat).
Proof.
  intros fuel attempt tr. rewrite validate_loop_step. cbv zeta.
  destruct (attempt_outcome env apiKey fetch attempt) as [[|]|e].
  - eexists. split; [simpl snd; rewrite <- !app_assoc; reflexivity|].
    intros k d Hin. simpl in Hin. intuition discriminate.
  - match goal with |- context [validate_loop _ _ _ _ ?a ?t] =>
        destruct (validate_loop_extends fuel a t) as (l & Hl & Hs & _) end.
    exists (EvClearTimeout attempt :: l). rewrite Hl. split.
    + rewrite <- !app_assoc. reflexivity.
    + intros k d [Hin|Hin]; [discriminate|]. apply Hs in Hin. lia.
  - destruct (is_AuthenticationError e || is_ConnectionError e
              || Nat.leb MAX_API_RETRIES attempt).
    + eexists. split; [simpl snd; rewrite <- !app_assoc; reflexivity|].
      intros k d Hin. simpl in Hin. intuition discriminate.
    + match goal with |- context [validate_loop _ _ _ _ ?a ?t] =>
        destruct (validate_loop_extends fuel a t) as (l & Hl & Hs & _) end.
      exists (EvSleep attempt (backoff_delay attempt) :: EvClearTimeout attempt :: l).
      rewrite Hl. split.
      * rewrite <- !app_assoc. reflexivity.
      * intros k d [Hin|[Hin|Hin]]; try discriminate.
        -- injection Hin as <- _. lia.
        -- apply Hs in Hin. lia.
Qed.

Lemma validateApiKey_extends : forall tr,
  exists l, snd (validateApiKey env fetch apiKey tr) = (tr ++ l)%list
            /\ no_transport_event l.
Proof.
  intros tr. unfold validateApiKey.
  destruct (String.eqb apiKey "" || String.eqb (trim apiKey) "").
  - exists []. simpl. rewrite app_nil_r. split; [reflexivity|split; reflexivity].
  - destruct (validate_loop_extends MAX_API_RETRIES 1 tr) as (l & Hl & _ & Hn).
    exists l. split; assumption.
Qed.

End ValidateLemmas.

(* ------------------------------------------------------------------ *)
(** * Lemmas on the orchestrator *)

Lemma ends_app : forall a b, ends (a ++ b) = ends a + ends b.
Proof. intros a b. unfold ends. rewrite filter_app, length_app. reflexivity. Qed.

Lemma clients_constructed_app : forall a b,
  clients_constructed (a ++ b) = clients_constructed a + clients_constructed b.
Proof.
  intros a b. unfold clients_constructed. rewrite filter_app, length_app.
  reflexivity.
Qed.


Lemma lift_pair : forall {A B} (f : A -> B) (r : Result A) (tr : list Event),
  match r with Ok a => (Ok (f a), tr) | Throw e => (Throw e, tr) end
  = (lift_result f r, tr).
Proof. intros A B f r tr. destruct r; reflexivity. Qed.


Lemma teardown_tail_ok : forall {R} (f : R -> SynchronizeResult) tp l r try_result,
  teardown_tail f tp l (Ok r) try_result ->
  exists resp, try_result = Ok resp /\ r = f resp.
Proof.
  intros R f tp l r try_result. unfold teardown_tail, after_teardown.
  destruct (ctor_fails tp); [intros [_ H]; discriminate|].
  intros (_ & _ & H). destruct (end_fails tp); [discriminate|].
  destruct try_result as [resp|e]; [|discriminate].
  exists resp. split; [reflexivity|]. simpl in H. congruence.
Qed.

Lemma https_try_result_ok : forall {R} (tp : Transport R) resp,
  https_try_result tp = Ok resp -> sync_result tp = inr resp.
Proof.
  intros R tp resp. unfold https_try_result.
  destruct (sync_result tp); congruence.
Qed.

Lemma ssh_try_result_ok : forall {R} (tp : Transport R) resp,
  ssh_try_result tp = Ok resp -> sync_result tp = inr resp.
Proof.
  intros R tp resp. unfold ssh_try_result.
  destruct (ready_fails tp); [discriminate|]. apply https_try_result_ok.
Qed.

Module SyncFacts.
Import Sync.

Section Facts.
Variable env : LicenseEnv.
Variable fetch : nat -> FetchOutcome.
Variable tp : Transport SyncFilesResult.

Lemma synchronizeViaHTTPs_shape : forall config dir mode opts tr,
  let (res, tr') := synchronizeViaHTTPs tp config dir mode opts tr in
  exists l, tr' = (tr ++ l)%list /\
    if port_falsy (symitarAppPort config) then
      l = [] /\
      res = Throw (PlainError "symitar-app-port is required when using HTTPS connection")
    else
      match ctor_fails tp with
      | Some m => l = [] /\ res = Throw (PlainError m)
      | None => clients_constructed l = 1 /\ ends l = 1 /\
                res = after_teardown (end_fails tp) (https_try_result tp)
      end.
Proof.
  intros config dir mode opts tr. unfold synchronizeViaHTTPs.
  destruct (port_falsy (symitarAppPort config)).
  - exists []. rewrite app_nil_r. auto.
  - unfold construct, bind, emit, try_finally, call_sync, client_end,
      after_teardown, https_try_result, throw, ret.
    destruct (ctor_fails tp).
    + exists []. rewrite app_nil_r. auto.
    + destruct (sync_result tp); destruct (end_fails tp);
        eexists; (split; [rewrite <- !app_assoc; reflexivity|]);
        repeat split.
Qed.

Lemma synchronizeViaSSH_shape : forall config dir mode opts tr,
  let (res, tr') := synchronizeViaSSH tp config dir mode opts tr in
  exists l, tr' = (tr ++ l)%list /\
    match ctor_fails tp with
    | Some m => l = [] /\ res = Throw (PlainError m)
    | None => clients_constructed l = 1 /\ ends l = 1 /\
              res = after_teardown (end_fails tp) (ssh_try_result tp)
    end.
Proof.
  intros config dir mode opts tr. unfold synchronizeViaSSH.
  unfold construct, await_ready, bind, emit, try_finally, call_sync, client_end,
    after_teardown, ssh_try_result, https_try_result, throw, ret.
  destruct (ctor_fails tp).
  - exists []. rewrite app_nil_r. auto.
  - destruct (ready_fails tp); [|destruct (sync_result tp)]; destruct (end_fails tp);
      eexists; (split; [rewrite <- !app_assoc; reflexivity|]);
      repeat split.
Qed.

Lemma synchronizeToSymitar_unfold : forall config,
  synchronizeToSymitar env fetch tp config [] =
  match validateApiKey env fetch (apiKey config) [] with
  | (Throw e, tr) => (Throw e, tr)
  | (Ok _, tr) =>
      let directoryConfig := getDirectoryConfig (directoryType config) in
      let syncOptions :=
        {| transport := getSyncTransport (syncMethod config);
           concurrency := sftpConcurrency config;
           powerOn_installList :=
             getInstallList (directoryType config) (installPowerOnList config);
           powerOn_validateIgnoreList := validateIgnoreList config |} in
      let mode := getSyncMode (syncMode config) in
      match (match connectionType config with
             | https => synchronizeViaHTTPs tp config (symitarDirectory directoryConfig) mode syncOptions
             | ssh => synchronizeViaSSH tp config (symitarDirectory directoryConfig) mode syncOptions
             end) tr with
      | (Ok r, tr') => (Ok (to_result r), tr')
      | (Throw e, tr') => (Throw e, tr')
      end
  end.
Proof.
  intros config. unfold synchronizeToSymitar, bind at 1.
  destruct (validateApiKey env fetch (apiKey config) []) as [[u|e] tr]; [|reflexivity].
  unfold bind. cbv zeta.
  destruct (connectionType config);
    lazymatch goal with
    | |- match ?x with _ => _ end = _ => destruct x as [[r|e] tr']
    end; reflexivity.
Qed.


(** The trace of one invocation is the validation trace, free of transport
    events, followed by the transport part. *)
Lemma synchronizeToSymitar_shape : forall config,
  let (res, tr) := synchronizeToSymitar env fetch tp config [] in
  exists tv l, tr = (tv ++ l)%list /\ no_transport_event tv /\
  match fst (validateApiKey env fetch (apiKey config) []) with
  | Throw e => l = [] /\ res = Throw e
  | Ok _ =>
      match connectionType config with
      | https =>
          if port_falsy (symitarAppPort config) then
            l = [] /\
            res = Throw (PlainError "symitar-app-port is required when using HTTPS connection")
          else teardown_tail to_result tp l res (https_try_result tp)
      | ssh => teardown_tail to_result tp l res (ssh_try_result tp)
      end
  end.
Proof.
  intros config. rewrite synchronizeToSymitar_unfold.
  destruct (validateApiKey_extends env (apiKey config) fetch []) as (tv & Htv & Hn).
  destruct (validateApiKey env fetch (apiKey config) []) as [[u|e] tv'] eqn:E;
    simpl in Htv; subst tv'.
  - cbv zeta. unfold teardown_tail.
    destruct (connectionType config).
    + match goal with
      | |- context [synchronizeViaHTTPs tp config ?d ?m ?o tv] =>
          pose proof (synchronizeViaHTTPs_shape config d m o tv) as Hs;
          destruct (synchronizeViaHTTPs tp config d m o tv) as [r tr'] eqn:Ev
      end.
      rewrite ?Ev in Hs. hnf in Hs.
      destruct Hs as (l & -> & Hs).
      rewrite (lift_pair to_result r (tv ++ l)).
      exists tv, l. split; [reflexivity|]. split; [exact Hn|]. simpl fst.
      destruct (port_falsy (symitarAppPort config)).
      * destruct Hs as [-> ->]. auto.
      * destruct (ctor_fails tp).
        -- destruct Hs as [-> ->]. auto.
        -- destruct Hs as (H1 & H2 & ->). auto.
    + match goal with
      | |- context [synchronizeViaSSH tp config ?d ?m ?o tv] =>
          pose proof (synchronizeViaSSH_shape config d m o tv) as Hs;
          destruct (synchronizeViaSSH tp config d m o tv) as [r tr'] eqn:Ev
      end.
      rewrite ?Ev in Hs. hnf in Hs.
      rewrite ?Ev in Hs. hnf in Hs.
      destruct Hs as (l & -> & Hs).
      rewrite (lift_pair to_result r (tv ++ l)).
      exists tv, l. split; [reflexivity|]. split; [exact Hn|]. simpl fst.
      destruct (ctor_fails tp).
      * destruct Hs as [-> ->]. auto.
      * destruct Hs as (H1 & H2 & ->). auto.
  - simpl. exists tv, []. rewrite app_nil_r. split; [reflexivity|]. split; [exact Hn|]. auto.
Qed.

Lemma synchronizeToSymitar_ok : forall config r tr,
  synchronizeToSymitar env fetch tp config [] = (Ok r, tr) ->
  exists resp, sync_result tp = inr resp /\ r = to_result resp.
Proof.
  intros config r tr H.
  pose proof (synchronizeToSymitar_shape config) as Hs. rewrite H in Hs.
  destruct Hs as (tv & l & _ & _ & Hs).
  destruct (fst (validateApiKey env fetch (apiKey config) [])); [|destruct Hs; discriminate].
  destruct (connectionType config).
  - destruct (port_falsy (symitarAppPort config)); [destruct Hs; discriminate|].
    apply teardown_tail_ok in Hs. destruct Hs as (resp & Ht & ->).
    exists resp. split; [apply https_try_result_ok; exact Ht|reflexivity].
  - apply teardown_tail_ok in Hs. destruct Hs as (resp & Ht & ->).
    exists resp. split; [apply ssh_try_result_ok; exact Ht|reflexivity].
Qed.

End Facts.
End SyncFacts.

Module SyncLegacyFacts.
Import SyncLegacy.

Section Facts.
Variable env : LicenseEnv.
Variable fetch : nat -> FetchOutcome.
Variable tp : Transport SymitarSyncResponse.

Lemma legacy_synchronizeViaHTTPs_shape : forall config dir mode installList tr,
  let (res, tr') := synchronizeViaHTTPs tp config dir mode installList tr in
  exists l, tr' = (tr ++ l)%list /\
    if port_falsy (symitarAppPort config) then
      l = [] /\
      res = Throw (PlainError "symitar-app-port is required when using HTTPS connection")
    else
      match ctor_fails tp with
      | Some m => l = [] /\ res = Throw (PlainError m)
      | None => clients_constructed l = 1 /\ ends l = 1 /\
                res = after_teardown (end_fails tp) (https_try_result tp)
      end.
Proof.
  intros config dir mode installList tr. unfold synchronizeViaHTTPs.
  destruct (port_falsy (symitarAppPort config)).
  - exists []. rewrite app_nil_r. auto.
  - unfold construct, bind, emit, try_finally, call_sync, client_end,
      after_teardown, https_try_result, throw, ret.
    destruct (ctor_fails tp).
    + exists []. rewrite app_nil_r. auto.
    + destruct (sync_result tp); destruct (end_fails tp);
        eexists; (split; [rewrite <- !app_assoc; reflexivity|]);
        repeat split.
Qed.

Lemma legacy_synchronizeViaSSH_shape : forall config dir mode installList tr,
  let (res, tr') := synchronizeViaSSH tp config dir mode installList tr in
  exists l, tr' = (tr ++ l)%list /\
    match ctor_fails tp with
    | Some m => l = [] /\ res = Throw (PlainError m)
    | None => clients_constructed l = 1 /\ ends l = 1 /\
              res = after_teardown (end_fails tp) (ssh_try_result tp)
    end.
Proof.
  intros config dir mode installList tr. unfold synchronizeViaSSH.
  unfold construct, await_ready, bind, emit, try_finally, call_sync, client_end,
    after_teardown, ssh_try_result, https_try_result, throw, ret.
  destruct (ctor_fails tp).
  - exists []. rewrite app_nil_r. auto.
  - destruct (ready_fails tp); [|destruct (sync_result tp)]; destruct (end_fails tp);
      eexists; (split; [rewrite <- !app_assoc; reflexivity|]);
      repeat split.
Qed.

Lemma legacy_synchronizeToSymitar_unfold : forall config,
  synchronizeToSymitar env fetch tp config [] =
  match validateApiKey env fetch (apiKey config) [] with
  | (Throw e, tr) => (Throw e, tr)
  | (Ok _, tr) =>
      let directoryConfig := getDirectoryConfig (directoryType config) in
      let installList :=
        getInstallList (directoryType config) (installPowerOnList config) in
      let mode := getSyncMode (syncMode config) in
      match (match connectionType config with
             | https => synchronizeViaHTTPs tp config (symitarDirectory directoryConfig) mode installList
             | ssh => synchronizeViaSSH tp config (symitarDirectory directoryConfig) mode installList
             end) tr with
      | (Ok r, tr') => (Ok (to_result r), tr')
      | (Throw e, tr') => (Throw e, tr')
      end
  end.
Proof.
  intros config. unfold synchronizeToSymitar, bind at 1.
  destruct (validateApiKey env fetch (apiKey config) []) as [[u|e] tr]; [|reflexivity].
  unfold bind. cbv zeta.
  destruct (connectionType config);
    lazymatch goal with
    | |- match ?x with _ => _ end = _ => destruct x as [[r|e] tr']
    end; reflexivity.
Qed.


(** The trace of one invocation is the validation trace, free of transport
    events, followed by the transport part. *)
Lemma legacy_synchronizeToSymitar_shape : forall config,
  let (res, tr) := synchronizeToSymitar env fetch tp config [] in
  exists tv l, tr = (tv ++ l)%list /\ no_transport_event tv /\
  match fst (validateApiKey env fetch (apiKey config) []) with
  | Throw e => l = [] /\ res = Throw e
  | Ok _ =>
      match connectionType config with
      | https =>
          if port_falsy (symitarAppPort config) then
            l = [] /\
            res = Throw (PlainError "symitar-app-port is required when using HTTPS connection")
          else teardown_tail to_result tp l res (https_try_result tp)
      | ssh => teardown_tail to_result tp l res (ssh_try_result tp)
      end
  end.
Proof.
  intros config. rewrite legacy_synchronizeToSymitar_unfold.
  destruct (validateApiKey_extends env (apiKey config) fetch []) as (tv & Htv & Hn).
  destruct (validateApiKey env fetch (apiKey config) []) as [[u|e] tv'] eqn:E;
    simpl in Htv; subst tv'.
  - cbv zeta. unfold teardown_tail.
    destruct (connectionType config).
    + match goal with
      | |- context [synchronizeViaHTTPs tp config ?d ?m ?o tv] =>
          pose proof (legacy_synchronizeViaHTTPs_shape config d m o tv) as Hs;
          destruct (synchronizeViaHTTPs tp config d m o tv) as [r tr'] eqn:Ev
      end.
      rewrite ?Ev in Hs. hnf in Hs.
      destruct Hs as (l & -> & Hs).
      rewrite (lift_pair to_result r (tv ++ l)).
      exists tv, l. split; [reflexivity|]. split; [exact Hn|]. simpl fst.
      destruct (port_falsy (symitarAppPort config)).
      * destruct Hs as [-> ->]. auto.
      * destruct (ctor_fails tp).
        -- destruct Hs as [-> ->]. auto.
        -- destruct Hs as (H1 & H2 & ->). auto.
    + match goal with
      | |- context [synchronizeViaSSH tp config ?d ?m ?o tv] =>
          pose proof (legacy_synchronizeViaSSH_shape config d m o tv) as Hs;
          destruct (synchronizeViaSSH tp config d m o tv) as [r tr'] eqn:Ev
      end.
      rewrite ?Ev in Hs. hnf in Hs.
      rewrite ?Ev in Hs. hnf in Hs.
      destruct Hs as (l & -> & Hs).
      rewrite (lift_pair to_result r (tv ++ l)).
      exists tv, l. split; [reflexivity|]. split; [exact Hn|]. simpl fst.
      destruct (ctor_fails tp).
      * destruct Hs as [-> ->]. auto.
      * destruct Hs as (H1 & H2 & ->). auto.
  - simpl. exists tv, []. rewrite app_nil_r. split; [reflexivity|]. split; [exact Hn|]. auto.
Qed.

Lemma legacy_synchronizeToSymitar_ok : forall config r tr,
  synchronizeToSymitar env fetch tp config [] = (Ok r, tr) ->
  exists resp, sync_result tp = inr resp /\ r = to_result resp.
Proof.
  intros config r tr H.
  pose proof (legacy_synchronizeToSymitar_shape config) as Hs. rewrite H in Hs.
  destruct Hs as (tv & l & _ & _ & Hs).
  destruct (fst (validateApiKey env fetch (apiKey config) [])); [|destruct Hs; discriminate].
  destruct (connectionType config).
  - destruct (port_falsy (symitarAppPort config)); [destruct Hs; discriminate|].
    apply teardown_tail_ok in Hs. destruct Hs as (resp & Ht & ->).
    exists resp. split; [apply https_try_result_ok; exact Ht|reflexivity].
  - apply teardown_tail_ok in Hs. destruct Hs as (resp & Ht & ->).
    exists resp. split; [apply ssh_try_result_ok; exact Ht|reflexivity].
Qed.

End Facts.
End SyncLegacyFacts.

(* ================================================================== *)
(** * Properties of the specification *)

(** C9: [getInstallList] returns the requested list unchanged for
    [powerOns], the only type whose [supportsInstall] is set, and the
    empty list for every other directory type, whatever the requested
    list contains: it overrides, it never rejects. *)
Theorem getInstallList_override : forall (t : DirectoryType) (requested : list string),
  getInstallList t requested = match t with powerOns => requested | _ => [] end.
Proof. intros [] requested; reflexivity. Qed.

(** C8: [calculateTotalChanges] is the number of deployed plus deleted
    files, plus the installed and uninstalled files only for [powerOns];
    on {deployed:[A,B], deleted:[C], installed:[A], uninstalled:[D,E]} it
    is 6 for [powerOns] and 3 for every other type. *)
Theorem calculateTotalChanges_spec : forall (t : DirectoryType) (r : ChangeLists),
  calculateTotalChanges t r =
    length (deployed r) + length (deleted r)
    + match t with
      | powerOns => length (installed r) + length (uninstalled r)
      | _ => 0
      end
  /\ calculateTotalChanges t example_outcome = match t with powerOns => 6 | _ => 3 end.
Proof.
  intros [] r; unfold calculateTotalChanges; simpl; split; try reflexivity; lia.
Qed.

(** C5: a key that is empty, or empty after [trim], is refused at once
    with the AuthenticationError "PowerOn Pipelines API Key is missing"
    carrying the key as given and the empty host; the trace is left
    unchanged, so no fetch, no timer and no retry happens. *)
Theorem validateApiKey_blank_key : forall env fetch apiKey tr,
  (apiKey = "" \/ trim apiKey = "") ->
  validateApiKey env fetch apiKey tr =
  (Throw (AuthenticationError "PowerOn Pipelines API Key is missing" apiKey ""), tr).
Proof.
  intros env fetch apiKey tr [->|H]; unfold validateApiKey; [reflexivity|].
  rewrite H. simpl. rewrite orb_true_r. reflexivity.
Qed.

(** C3: for a non-blank key whose three fetch attempts all fail in a
    retryable way (fetch rejects, or the body of a success response
    cannot be read), exactly three fetches are made, with back-off
    sleeps of 500 ms and 1000 ms between them, and the call ends in a
    ConnectionError carrying the host [connection_error_host env]
    ("license[.libum-sandbox].libum.io", without the stage prefix that
    [license_url] uses), port 443, the secure flag, and the third
    failure. *)
Theorem validateApiKey_retries_exhausted : forall env fetch apiKey m1 m2 m3,
  is_blank apiKey = false ->
  retry_message (fetch 1) = Some m1 ->
  retry_message (fetch 2) = Some m2 ->
  retry_message (fetch 3) = Some m3 ->
  validateApiKey env fetch apiKey [] =
  (Throw (ConnectionError
            "Failed to fetch PowerOn Pipelines API key subscription data after multiple attempts"
            (connection_error_host env) 443 true (PlainError m3)),
   [EvSetTimeout 1 API_REQUEST_TIMEOUT_MS; EvFetch 1 (license_url env) apiKey;
    EvSleep 1 500; EvClearTimeout 1;
    EvSetTimeout 2 API_REQUEST_TIMEOUT_MS; EvFetch 2 (license_url env) apiKey;
    EvSleep 2 1000; EvClearTimeout 2;
    EvSetTimeout 3 API_REQUEST_TIMEOUT_MS; EvFetch 3 (license_url env) apiKey;
    EvClearTimeout 3]).
Proof.
  intros env fetch apiKey m1 m2 m3 Hk H1 H2 H3.
  unfold validateApiKey. unfold is_blank in Hk. rewrite Hk.
  change (validate_loop env apiKey fetch MAX_API_RETRIES) with (validate_loop env apiKey fetch 3).
  rewrite validate_loop_step, (attempt_outcome_retry env apiKey fetch 1 m1 H1).
  cbn -[validate_loop attempt_outcome].
  rewrite validate_loop_step, (attempt_outcome_retry env apiKey fetch 2 m2 H2).
  cbn -[validate_loop attempt_outcome].
  rewrite validate_loop_step, (attempt_outcome_retry env apiKey fetch 3 m3 H3).
  reflexivity.
Qed.

(** C10: every result returned by [synchronizeToSymitar], in both
    revisions, has each count equal to the length of its list. *)
Theorem synchronize_counts_match_lists :
  (forall env fetch tp config,
     match fst (Sync.synchronizeToSymitar env fetch tp config []) with
     | Ok r => filesDeployed r = length (deployedFiles r)
               /\ filesDeleted r = length (deletedFiles r)
               /\ filesInstalled r = length (installedFiles r)
               /\ filesUninstalled r = length (uninstalledFiles r)
     | Throw _ => True
     end)
  /\ (forall env fetch tp config,
     match fst (SyncLegacy.synchronizeToSymitar env fetch tp config []) with
     | Ok r => filesDeployed r = length (deployedFiles r)
               /\ filesDeleted r = length (deletedFiles r)
               /\ filesInstalled r = length (installedFiles r)
               /\ filesUninstalled r = length (uninstalledFiles r)
     | Throw _ => True
     end).
Proof.
  split; intros env fetch tp config.
  - destruct (Sync.synchronizeToSymitar env fetch tp config []) as [[r|e] tr] eqn:E;
      [|exact I].
    destruct (SyncFacts.synchronizeToSymitar_ok env fetch tp config r tr E)
      as (resp & _ & ->).
    unfold Sync.to_result, Sync.opt_length, Sync.opt_list; simpl.
    destruct (Sync.installed resp), (Sync.uninstalled resp); auto.
  - destruct (SyncLegacy.synchronizeToSymitar env fetch tp config []) as [[r|e] tr] eqn:E;
      [|exact I].
    destruct (SyncLegacyFacts.legacy_synchronizeToSymitar_ok env fetch tp config r tr E)
      as (resp & _ & ->).
    simpl. auto.
Qed.

(** C4 (as amended): once an attempt receives a non-success HTTP status,
    after any number of retried failures before it, that attempt is the
    last: the call ends with the AuthenticationError built from the
    status, and the number of fetches made equals the attempt number.
    The error carries the offending key and the empty host string. *)
Theorem validateApiKey_http_error_final : forall env fetch apiKey n r,
  is_blank apiKey = false ->
  (1 <= n <= 3)%nat ->
  (forall k, (1 <= k < n)%nat -> retry_message (fetch k) <> None) ->
  fetch n = FetchResolve r ->
  ok r = false ->
  fst (validateApiKey env fetch apiKey []) =
    Throw (AuthenticationError
             ("Failed to validate API key: " ++ string_of_Z (status r)
              ++ " " ++ statusText r) apiKey "")
  /\ fetches (snd (validateApiKey env fetch apiKey [])) = n.
Proof.
  intros env fetch apiKey n r Hk Hn Hprev Hf Hok.
  pose proof (attempt_outcome_not_ok env apiKey fetch n r Hf Hok) as Hnot.
  unfold validateApiKey. unfold is_blank in Hk. rewrite Hk.
  change (validate_loop env apiKey fetch MAX_API_RETRIES) with (validate_loop env apiKey fetch 3).
  destruct n as [|[|[|[|n]]]]; try lia.
  - rewrite validate_loop_step, Hnot. split; reflexivity.
  - destruct (attempt_outcome_retry_ex env apiKey fetch 1 (Hprev 1 ltac:(lia))) as [m1 E1].
    rewrite validate_loop_step, E1. cbn -[validate_loop attempt_outcome].
    rewrite validate_loop_step, Hnot. split; reflexivity.
  - destruct (attempt_outcome_retry_ex env apiKey fetch 1 (Hprev 1 ltac:(lia))) as [m1 E1].
    destruct (attempt_outcome_retry_ex env apiKey fetch 2 (Hprev 2 ltac:(lia))) as [m2 E2].
    rewrite validate_loop_step, E1. cbn -[validate_loop attempt_outcome].
    rewrite validate_loop_step, E2. cbn -[validate_loop attempt_outcome].
    rewrite validate_loop_step, Hnot. split; reflexivity.
Qed.

(** C6: when attempt [n] (1 or 2) fails in a retryable way for a
    non-blank key, the trace shows, right after fetch [n] and before
    fetch [n+1], one sleep of [backoff_delay n] =
    min(500 * 2^(n-1), 10000) ms, no other sleep is tagged with attempt
    [n], and the delay is 500 ms after attempt 1 and 1000 ms after
    attempt 2. *)
Theorem validateApiKey_backoff : forall env fetch apiKey n,
  is_blank apiKey = false ->
  (n = 1 \/ n = 2)%nat ->
  (forall k, (1 <= k <= n)%nat -> retry_message (fetch k) <> None) ->
  (exists pre post,
     snd (validateApiKey env fetch apiKey []) =
     (pre ++ [EvFetch n (license_url env) apiKey; EvSleep n (backoff_delay n);
              EvClearTimeout n; EvSetTimeout (S n) API_REQUEST_TIMEOUT_MS;
              EvFetch (S n) (license_url env) apiKey] ++ post)%list)
  /\ (forall d, In (EvSleep n d) (snd (validateApiKey env fetch apiKey [])) ->
                d = backoff_delay n)
  /\ backoff_delay n = Z.min (500 * 2 ^ (Z.of_nat n - 1)) 10000
  /\ backoff_delay n = (if Nat.eqb n 1 then 500 else 1000)%Z.
Proof.
  intros env fetch apiKey n Hk Hn Hretry.
  unfold validateApiKey. unfold is_blank in Hk. rewrite Hk.
  change (validate_loop env apiKey fetch MAX_API_RETRIES) with (validate_loop env apiKey fetch 3).
  destruct (attempt_outcome_retry_ex env apiKey fetch 1 (Hretry 1 ltac:(lia))) as [m1 E1].
  rewrite validate_loop_step, E1. cbn -[validate_loop attempt_outcome backoff_delay].
  destruct Hn as [->| ->].
  - match goal with
    | |- context [validate_loop env apiKey fetch 2 2 ?t] =>
        destruct (validate_loop_prefix env apiKey fetch 1 2 t) as (l & Hl & Hs)
    end.
    rewrite Hl. split; [|split; [|split; reflexivity]].
    + exists [EvSetTimeout 1 API_REQUEST_TIMEOUT_MS], l. reflexivity.
    + intros d Hin. simpl in Hin.
      destruct Hin as [H|[H|[H|[H|[H|[H|H]]]]]]; try discriminate.
      * injection H as ->. reflexivity.
      * apply Hs in H. lia.
  - destruct (attempt_outcome_retry_ex env apiKey fetch 2 (Hretry 2 ltac:(lia))) as [m2 E2].
    rewrite validate_loop_step, E2. cbn -[validate_loop attempt_outcome backoff_delay].
    match goal with
    | |- context [validate_loop env apiKey fetch 1 3 ?t] =>
        destruct (validate_loop_prefix env apiKey fetch 0 3 t) as (l & Hl & Hs)
    end.
    rewrite Hl. split; [|split; [|split; reflexivity]].
    + exists [EvSetTimeout 1 API_REQUEST_TIMEOUT_MS;
              EvFetch 1 (license_url env) apiKey; EvSleep 1 (backoff_delay 1);
              EvClearTimeout 1; EvSetTimeout 2 API_REQUEST_TIMEOUT_MS], l.
      reflexivity.
    + intros d Hin. simpl in Hin.
      destruct Hin as [H|[H|[H|[H|[H|[H|[H|[H|[H|[H|H]]]]]]]]]]; try discriminate.
      * injection H as ->. reflexivity.
      * apply Hs in H. lia.
Qed.

Ltac close_no_client :=
  unfold ends, clients_constructed; simpl;
  split; [reflexivity|split; [lia|left; reflexivity]].

Ltac teardown_case Hs :=
  hnf in Hs;
  let tv := fresh "tv" in let l := fresh "l" in
  let Hc := fresh "Hc" in let He := fresh "He" in
  destruct Hs as (tv & l & -> & [Hc He] & Hs);
  rewrite ends_app, clients_constructed_app, Hc, He; simpl;
  match type of Hs with
  | match ?v with Ok _ => _ | Throw _ => _ end =>
      destruct v; cbv beta iota in Hs;
      [|destruct Hs as [-> _]; close_no_client]
  end;
  match goal with
  | |- context [match ?c with https => _ | ssh => _ end] => destruct c
  end; cbv beta iota in Hs;
  try (match type of Hs with
       | if ?b then _ else _ => destruct b; [destruct Hs as [-> _]; close_no_client|]
       end);
  unfold teardown_tail in Hs;
  match type of Hs with
  | match ?c with Some _ => _ | None => _ end =>
      destruct c;
      [destruct Hs as [-> _]; close_no_client
      |let H1 := fresh in let H2 := fresh in let H3 := fresh in
       destruct Hs as (H1 & H2 & H3); rewrite H1, H2;
       split; [reflexivity|split; [lia|right; exact H3]]]
  end.

(** C2 (as amended): in both revisions, every invocation constructs at
    most one transport client, and calls its [end] exactly as many times
    as a client was constructed; once a client exists, the caller sees
    the completion of the synchronize step (readiness, then the sync
    call) when [end] succeeds, and the failure of [end] in its place when
    [end] fails. *)
Theorem teardown_exactly_once :
  (forall env fetch tp config,
     let (res, tr) := Sync.synchronizeToSymitar env fetch tp config [] in
     ends tr = clients_constructed tr /\ clients_constructed tr <= 1 /\
     (clients_constructed tr = 0 \/
      res = lift_result Sync.to_result
              (after_teardown (end_fails tp)
                 (match Sync.connectionType config with
                  | https => https_try_result tp
                  | ssh => ssh_try_result tp
                  end))))
  /\ (forall env fetch tp config,
     let (res, tr) := SyncLegacy.synchronizeToSymitar env fetch tp config [] in
     ends tr = clients_constructed tr /\ clients_constructed tr <= 1 /\
     (clients_constructed tr = 0 \/
      res = lift_result SyncLegacy.to_result
              (after_teardown (end_fails tp)
                 (match SyncLegacy.connectionType config with
                  | https => https_try_result tp
                  | ssh => ssh_try_result tp
                  end)))).
Proof.
  split; intros env fetch tp config.
  - pose proof (SyncFacts.synchronizeToSymitar_shape env fetch tp config) as Hs.
    destruct (Sync.synchronizeToSymitar env fetch tp config []) as [res tr].
    teardown_case Hs.
  - pose proof (SyncLegacyFacts.legacy_synchronizeToSymitar_shape env fetch tp config) as Hs.
    destruct (SyncLegacy.synchronizeToSymitar env fetch tp config []) as [res tr].
    teardown_case Hs.
Qed.

Ltac no_port_case Hs Hc Hp :=
  hnf in Hs;
  let tv := fresh "tv" in let l := fresh "l" in
  let Hc0 := fresh "Hc" in let He0 := fresh "He" in
  destruct Hs as (tv & l & -> & [Hc0 He0] & Hs);
  rewrite ends_app, clients_constructed_app, Hc0, He0;
  match type of Hs with
  | match ?v with Ok _ => _ | Throw _ => _ end =>
      destruct v; cbv beta iota in Hs;
      [rewrite Hc, Hp in Hs|]; destruct Hs as [-> ->]; auto
  end.

(** C7 (as amended): in both revisions, with [connectionType = https]
    and [symitarAppPort] absent (or 0, which [!config.symitarAppPort] also
    rejects), no transport client is ever constructed and [end] is never
    called; the invocation fails with the licence check's error when that
    check fails, and otherwise with the Error "symitar-app-port is
    required when using HTTPS connection". *)
Theorem https_without_port_no_client :
  (forall env fetch tp config,
     Sync.connectionType config = https ->
     port_falsy (Sync.symitarAppPort config) = true ->
     let (res, tr) := Sync.synchronizeToSymitar env fetch tp config [] in
     clients_constructed tr = 0 /\ ends tr = 0 /\
     res = match fst (validateApiKey env fetch (Sync.apiKey config) []) with
           | Ok _ => Throw (PlainError "symitar-app-port is required when using HTTPS connection")
           | Throw e => Throw e
           end)
  /\ (forall env fetch tp config,
     SyncLegacy.connectionType config = https ->
     port_falsy (SyncLegacy.symitarAppPort config) = true ->
     let (res, tr) := SyncLegacy.synchronizeToSymitar env fetch tp config [] in
     clients_constructed tr = 0 /\ ends tr = 0 /\
     res = match fst (validateApiKey env fetch (SyncLegacy.apiKey config) []) with
           | Ok _ => Throw (PlainError "symitar-app-port is required when using HTTPS connection")
           | Throw e => Throw e
           end).
Proof.
  split; intros env fetch tp config Hc Hp.
  - pose proof (SyncFacts.synchronizeToSymitar_shape env fetch tp config) as Hs.
    destruct (Sync.synchronizeToSymitar env fetch tp config []) as [res tr].
    no_port_case Hs Hc Hp.
  - pose proof (SyncLegacyFacts.legacy_synchronizeToSymitar_shape env fetch tp config) as Hs.
    destruct (SyncLegacy.synchronizeToSymitar env fetch tp config []) as [res tr].
    no_port_case Hs Hc Hp.
Qed.

(** C1 (as amended): in both revisions, for a directory type that does
    not support install, a successful [synchronizeToSymitar] returns the
    installed and uninstalled lists of the transport's response unchanged
    (absent lists read as empty in the current revision), with counts
    equal to their lengths; only [calculateTotalChanges], applied by
    [main.ts] to the result, leaves them out, so the total is
    [filesDeployed + filesDeleted]. *)
Theorem non_install_results_pass_through :
  (forall env fetch tp config,
     supportsInstall (getDirectoryConfig (Sync.directoryType config)) = false ->
     match fst (Sync.synchronizeToSymitar env fetch tp config []) with
     | Ok r => exists resp, sync_result tp = inr resp
               /\ installedFiles r = Sync.opt_list (Sync.installed resp)
               /\ uninstalledFiles r = Sync.opt_list (Sync.uninstalled resp)
               /\ filesInstalled r = length (installedFiles r)
               /\ filesUninstalled r = length (uninstalledFiles r)
               /\ calculateTotalChanges (Sync.directoryType config) (result_changes r)
                  = filesDeployed r + filesDeleted r
     | Throw _ => True
     end)
  /\ (forall env fetch tp config,
     supportsInstall (getDirectoryConfig (SyncLegacy.directoryType config)) = false ->
     match fst (SyncLegacy.synchronizeToSymitar env fetch tp config []) with
     | Ok r => exists resp, sync_result tp = inr resp
               /\ installedFiles r = SyncLegacy.installed resp
               /\ uninstalledFiles r = SyncLegacy.uninstalled resp
               /\ filesInstalled r = length (installedFiles r)
               /\ filesUninstalled r = length (uninstalledFiles r)
               /\ calculateTotalChanges (SyncLegacy.directoryType config) (result_changes r)
                  = filesDeployed r + filesDeleted r
     | Throw _ => True
     end).
Proof.
  split; intros env fetch tp config Hs.
  - destruct (Sync.synchronizeToSymitar env fetch tp config []) as [[r|e] tr] eqn:E;
      [|exact I].
    destruct (SyncFacts.synchronizeToSymitar_ok env fetch tp config r tr E)
      as (resp & Ht & ->).
    exists resp. unfold calculateTotalChanges, Sync.to_result, Sync.opt_length, Sync.opt_list.
    unfold getDirectoryConfig in Hs. simpl. rewrite Hs.
    destruct (Sync.installed resp), (Sync.uninstalled resp); repeat split; auto.
  - destruct (SyncLegacy.synchronizeToSymitar env fetch tp config []) as [[r|e] tr] eqn:E;
      [|exact I].
    destruct (SyncLegacyFacts.legacy_synchronizeToSymitar_ok env fetch tp config r tr E)
      as (resp & Ht & ->).
    exists resp. unfold calculateTotalChanges, SyncLegacy.to_result.
    unfold getDirectoryConfig in Hs. simpl. rewrite Hs. repeat split; auto.
Qed.

(** C1: counterexample.  For [letterFiles], which does not support
    install, a transport response that lists an installed and an
    uninstalled file yields a result whose install counts are 1, not 0,
    in both revisions. *)
Lemma installed_not_forced_counterexample :
  supportsInstall (getDirectoryConfig letterFiles) = false
  /\ match fst (SyncLegacy.synchronizeToSymitar env_production fetch_active
                  (transport_with legacy_response None)
                  (legacy_config letterFiles ssh None "test-api-key") []) with
     | Ok r => filesInstalled r = 1 /\ installedFiles r = ["NOTICE.LTR"]
               /\ filesUninstalled r = 1 /\ uninstalledFiles r = ["OLD.LTR"]
     | Throw _ => False
     end
  /\ match fst (Sync.synchronizeToSymitar env_production fetch_active
                  (transport_with sync_response None)
                  (sync_config letterFiles ssh None "test-api-key") []) with
     | Ok r => filesInstalled r = 1 /\ installedFiles r = ["NOTICE.LTR"]
     | Throw _ => False
     end.
Proof. vm_compute. repeat split. Qed.

(** C1 (as amended): instance on the same [letterFiles] input. *)
Lemma non_install_results_pass_through_witness :
  supportsInstall (getDirectoryConfig letterFiles) = false
  /\ match fst (SyncLegacy.synchronizeToSymitar env_production fetch_active
                  (transport_with legacy_response None)
                  (legacy_config letterFiles ssh None "test-api-key") []) with
     | Ok r => exists resp, sync_result (transport_with legacy_response None) = inr resp
               /\ installedFiles r = SyncLegacy.installed resp
               /\ uninstalledFiles r = SyncLegacy.uninstalled resp
               /\ filesInstalled r = length (installedFiles r)
               /\ filesUninstalled r = length (uninstalledFiles r)
               /\ calculateTotalChanges letterFiles (result_changes r)
                  = filesDeployed r + filesDeleted r
     | Throw _ => True
     end.
Proof.
  split; [reflexivity|].
  apply (proj2 non_install_results_pass_through env_production fetch_active
           (transport_with legacy_response None)
           (legacy_config letterFiles ssh None "test-api-key")).
  reflexivity.
Defined.

(** C2: counterexample.  The sync call succeeds, but [end] fails: the
    caller sees the failure of [end], not the sync result, although
    [end] was called exactly once. *)
Lemma teardown_failure_masks_counterexample :
  sync_result (transport_with legacy_response (Some "Connection reset during close"))
    = inr legacy_response
  /\ fst (SyncLegacy.synchronizeToSymitar env_production fetch_active
            (transport_with legacy_response (Some "Connection reset during close"))
            (legacy_config letterFiles ssh None "test-api-key") [])
     = Throw (PlainError "Connection reset during close")
  /\ ends (snd (SyncLegacy.synchronizeToSymitar env_production fetch_active
            (transport_with legacy_response (Some "Connection reset during close"))
            (legacy_config letterFiles ssh None "test-api-key") [])) = 1.
Proof. vm_compute. repeat split. Qed.

(** C3: with stage prefix "dev-" and three network errors, the three
    fetches go to https://dev-license.libum.io/..., while the
    ConnectionError names the host "license.libum.io". *)
Lemma validateApiKey_retries_exhausted_witness :
  validateApiKey env_dev_stage fetch_network_error "test-api-key" [] =
  (Throw (ConnectionError
            "Failed to fetch PowerOn Pipelines API key subscription data after multiple attempts"
            (connection_error_host env_dev_stage) 443 true (PlainError "Network error")),
   [EvSetTimeout 1 API_REQUEST_TIMEOUT_MS; EvFetch 1 (license_url env_dev_stage) "test-api-key";
    EvSleep 1 500; EvClearTimeout 1;
    EvSetTimeout 2 API_REQUEST_TIMEOUT_MS; EvFetch 2 (license_url env_dev_stage) "test-api-key";
    EvSleep 2 1000; EvClearTimeout 2;
    EvSetTimeout 3 API_REQUEST_TIMEOUT_MS; EvFetch 3 (license_url env_dev_stage) "test-api-key";
    EvClearTimeout 3])
  /\ connection_error_host env_dev_stage = "license.libum.io"
  /\ license_url env_dev_stage
     = "https://dev-license.libum.io/subscriptionsByApiKey?product=poweron-pipelines".
Proof.
  split; [|split; reflexivity].
  apply (validateApiKey_retries_exhausted env_dev_stage fetch_network_error "test-api-key"
           "Network error" "Network error" "Network error"); reflexivity.
Defined.

(** C4: counterexample.  On HTTP 401 the AuthenticationError carries the
    key but the empty host, not the licence host. *)
Lemma auth_error_host_counterexample :
  match fst (validateApiKey env_production fetch_401 "test-api-key" []) with
  | Throw (AuthenticationError _ key host) =>
      key = "test-api-key" /\ host = "" /\ host <> connection_error_host env_production
  | _ => False
  end.
Proof. vm_compute. split; [reflexivity|split; [reflexivity|discriminate]]. Qed.

(** C4 (as amended): two network errors, then HTTP 401 on the third
    attempt. *)
Lemma validateApiKey_http_error_final_witness :
  fst (validateApiKey env_production fetch_401_third "test-api-key" []) =
    Throw (AuthenticationError
             ("Failed to validate API key: " ++ string_of_Z (status response_401)
              ++ " " ++ statusText response_401) "test-api-key" "")
  /\ fetches (snd (validateApiKey env_production fetch_401_third "test-api-key" [])) = 3%nat.
Proof.
  apply (validateApiKey_http_error_final env_production fetch_401_third "test-api-key"
           3 response_401).
  - reflexivity.
  - lia.
  - intros k Hk. destruct k as [|[|[|k]]]; try lia; vm_compute; discriminate.
  - reflexivity.
  - reflexivity.
Defined.

(** C5: a key of three spaces. *)
Lemma validateApiKey_blank_key_witness :
  trim "   " = ""
  /\ validateApiKey env_production fetch_active "   " [] =
     (Throw (AuthenticationError "PowerOn Pipelines API Key is missing" "   " ""), []).
Proof.
  split; [reflexivity|].
  apply (validateApiKey_blank_key env_production fetch_active "   " []).
  right; reflexivity.
Defined.

(** C6: network errors on every attempt, first back-off. *)
Lemma validateApiKey_backoff_witness :
  (exists pre post,
     snd (validateApiKey env_production fetch_network_error "test-api-key" []) =
     (pre ++ [EvFetch 1 (license_url env_production) "test-api-key";
              EvSleep 1 (backoff_delay 1);
              EvClearTimeout 1; EvSetTimeout 2 API_REQUEST_TIMEOUT_MS;
              EvFetch 2 (license_url env_production) "test-api-key"] ++ post)%list)
  /\ (forall d, In (EvSleep 1 d) (snd (validateApiKey env_production fetch_network_error
                                         "test-api-key" [])) ->
                d = backoff_delay 1)
  /\ backoff_delay 1 = Z.min (500 * 2 ^ (Z.of_nat 1 - 1)) 10000
  /\ backoff_delay 1 = (if Nat.eqb 1 1 then 500 else 1000)%Z.
Proof.
  apply (validateApiKey_backoff env_production fetch_network_error "test-api-key" 1).
  - reflexivity.
  - left; reflexivity.
  - intros k Hk. destruct k as [|[|k]]; try lia; vm_compute; discriminate.
Defined.

(** C7: counterexample.  With an empty key, the HTTPS configuration
    without a port fails with the AuthenticationError of the licence
    check, not with the port error. *)
Lemma https_without_port_counterexample :
  SyncLegacy.connectionType (legacy_config powerOns https None "") = https
  /\ SyncLegacy.symitarAppPort (legacy_config powerOns https None "") = None
  /\ fst (SyncLegacy.synchronizeToSymitar env_production fetch_active
            (transport_with legacy_response None)
            (legacy_config powerOns https None "") [])
     = Throw (AuthenticationError "PowerOn Pipelines API Key is missing" "" "").
Proof. vm_compute. repeat split. Qed.

(** C7 (as amended): a valid key and no port, in the legacy revision. *)
Lemma https_without_port_no_client_witness :
  let (res, tr) := SyncLegacy.synchronizeToSymitar env_production fetch_active
                     (transport_with legacy_response None)
                     (legacy_config powerOns https None "test-api-key") [] in
  clients_constructed tr = 0 /\ ends tr = 0 /\
  res = match fst (validateApiKey env_production fetch_active "test-api-key" []) with
        | Ok _ => Throw (PlainError "symitar-app-port is required when using HTTPS connection")
        | Throw e => Throw e
        end.
Proof.
  apply (proj2 https_without_port_no_client env_production fetch_active
           (transport_with legacy_response None)
           (legacy_config powerOns https None "test-api-key")); reflexivity.
Defined.

(* ================================================================== *)
(** * Further properties of the code *)

(** ** Lemmas on strings: [trim], [split(',')], [parseInt] *)

Lemma digit_char_facts : forall c, is_decimal_digit c = true ->
  is_js_space c = false /\ Ascii.eqb c "-"%char = false /\ Ascii.eqb c "+"%char = false.
Proof.
  intros c. destruct c as [[] [] [] [] [] [] [] []]; vm_compute; intros H;
    first [discriminate H | auto].
Qed.

Lemma trim_start_spaces : forall ws s,
  forallb is_js_space (list_ascii_of_string ws) = true ->
  trim_start (ws ++ s) = trim_start s.
Proof.
  induction ws as [|c ws IH]; intros s H; [reflexivity|].
  simpl in H |- *. apply andb_prop in H as [Hc Hw]. rewrite Hc. apply IH, Hw.
Qed.

Lemma trim_start_chars : forall s a,
  In a (list_ascii_of_string (trim_start s)) -> In a (list_ascii_of_string s).
Proof.
  induction s as [|c s IH]; intros a H; [exact H|].
  simpl in H. destruct (is_js_space c); [right; apply IH, H|exact H].
Qed.

Lemma trim_end_chars : forall s a,
  In a (list_ascii_of_string (trim_end s)) -> In a (list_ascii_of_string s).
Proof.
  induction s as [|c s IH]; intros a H; [exact H|].
  simpl in H. destruct (trim_end s) as [|c' t] eqn:E.
  - destruct (is_js_space c); [contradiction|]. simpl in H. left. tauto.
  - simpl in H. destruct H as [H|H]; [left; exact H|right; apply IH; exact H].
Qed.

Lemma trim_chars : forall s a,
  In a (list_ascii_of_string (trim s)) -> In a (list_ascii_of_string s).
Proof. intros s a H. apply trim_start_chars, trim_end_chars, H. Qed.

Lemma trim_start_starts : forall s, starts_non_space (trim_start s).
Proof.
  induction s as [|c s IH]; [exact I|]. simpl.
  destruct (is_js_space c) eqn:E; [exact IH|exact E].
Qed.

Lemma trim_end_starts : forall s, starts_non_space s -> starts_non_space (trim_end s).
Proof.
  intros [|c s] H; [exact I|]. simpl in H |- *.
  destruct (trim_end s); [rewrite H|]; exact H.
Qed.

Lemma trim_start_id : forall s, starts_non_space s -> trim_start s = s.
Proof. intros [|c s] H; [reflexivity|]. simpl in H |- *. rewrite H. reflexivity. Qed.

Lemma trim_end_cons : forall c s c' t,
  trim_end s = String c' t -> trim_end (String c s) = String c (String c' t).
Proof. intros c s c' t E. simpl. rewrite E. reflexivity. Qed.

Lemma trim_end_idem : forall s, trim_end (trim_end s) = trim_end s.
Proof.
  induction s as [|c s IH]; [reflexivity|]. simpl.
  destruct (trim_end s) as [|c' t] eqn:E.
  - destruct (is_js_space c) eqn:Hc; [reflexivity|]. simpl. rewrite Hc. reflexivity.
  - apply trim_end_cons, IH.
Qed.

Lemma trim_idem : forall s, trim (trim s) = trim s.
Proof.
  intros s. unfold trim.
  rewrite (trim_start_id (trim_end (trim_start s))).
  - apply trim_end_idem.
  - apply trim_end_starts, trim_start_starts.
Qed.

Lemma trim_space_cons : forall s, trim (String " "%char s) = trim s.
Proof. reflexivity. Qed.

Lemma split_comma_no_comma : forall s y,
  In y (split_comma s) -> ~ In ","%char (list_ascii_of_string y).
Proof.
  induction s as [|c s IH]; intros y H.
  - simpl in H. destruct H as [<-|[]]. simpl. tauto.
  - simpl in H. destruct (Ascii.eqb c ","%char) eqn:Ec.
    + destruct H as [<-|H]; [simpl; tauto|apply IH, H].
    + apply Ascii.eqb_neq in Ec.
      destruct (split_comma s) as [|x r] eqn:Es.
      * destruct H as [<-|[]]. simpl. intros [H|[]]. congruence.
      * destruct H as [<-|H].
        -- simpl. intros [H|H]; [congruence|]. apply (IH x); [left; reflexivity|exact H].
        -- apply IH. right. exact H.
Qed.

Lemma split_comma_app : forall x s,
  ~ In ","%char (list_ascii_of_string x) ->
  split_comma (x ++ String ","%char s) = x :: split_comma s.
Proof.
  induction x as [|c x IH]; intros s H; [reflexivity|].
  simpl in H. simpl. rewrite IH by tauto.
  destruct (Ascii.eqb c ","%char) eqn:Ec; [|reflexivity].
  apply Ascii.eqb_eq in Ec. subst. tauto.
Qed.

Lemma split_comma_single : forall x,
  ~ In ","%char (list_ascii_of_string x) -> split_comma x = [x].
Proof.
  induction x as [|c x IH]; intros H; [reflexivity|].
  simpl in H. simpl. rewrite IH by tauto.
  destruct (Ascii.eqb c ","%char) eqn:Ec; [|reflexivity].
  apply Ascii.eqb_eq in Ec. subst. tauto.
Qed.

Lemma split_comma_cons : forall c s x r,
  Ascii.eqb c ","%char = false -> split_comma s = x :: r ->
  split_comma (String c s) = String c x :: r.
Proof. intros c s x r Hc E. simpl. rewrite Hc, E. reflexivity. Qed.

Lemma split_comma_join : forall l x,
  Forall (fun y => ~ In ","%char (list_ascii_of_string y)) (x :: l) ->
  split_comma (String.concat ", " (x :: l)) = x :: map (String " "%char) l.
Proof.
  induction l as [|y l IH]; intros x H.
  - simpl. apply split_comma_single. inversion H; assumption.
  - inversion H as [|? ? Hx Hl]; subst.
    change (String.concat ", " (x :: y :: l))
      with (x ++ String ","%char (String " "%char (String.concat ", " (y :: l)))).
    rewrite split_comma_app by exact Hx.
    rewrite (split_comma_cons " "%char _ y (map (String " "%char) l) eq_refl (IH y Hl)).
    reflexivity.
Qed.

Lemma digits_value_app : forall d rest acc seen,
  forallb is_decimal_digit (list_ascii_of_string d) = true ->
  match rest with String c _ => is_decimal_digit c = false | EmptyString => True end ->
  digits_value (d ++ rest) acc seen = digits_value d acc seen.
Proof.
  induction d as [|c d IH]; intros rest acc seen Hd Hr.
  - destruct rest as [|c rest]; [reflexivity|]. simpl. rewrite Hr. reflexivity.
  - simpl in Hd. apply andb_prop in Hd as [Hc Hd]. simpl. rewrite Hc.
    apply IH; assumption.
Qed.

(** ** Lemmas on the validation loop *)

Lemma count_events_app : forall p a b,
  count_events p (a ++ b) = count_events p a + count_events p b.
Proof. intros p a b. unfold count_events. rewrite filter_app, length_app. reflexivity. Qed.

Section ValidateMore.

Variable env : LicenseEnv.
Variable apiKey : string.
Variable fetch : nat -> FetchOutcome.

Lemma attempt_outcome_not_false : forall attempt,
  attempt_outcome env apiKey fetch attempt <> Ok false.
Proof.
  intros attempt.
  destruct (attempt_outcome_cases env apiKey fetch attempt) as [E|[[m E]|[m E]]];
    rewrite E; discriminate.
Qed.

Lemma validate_loop_events : forall fuel attempt tr,
  exists l, snd (validate_loop env apiKey fetch fuel attempt tr) = (tr ++ l)%list
    /\ forallb is_validation_event l = true.
Proof.
  induction fuel as [|fuel IH]; intros attempt tr.
  - exists []. simpl. rewrite app_nil_r. split; reflexivity.
  - rewrite validate_loop_step. cbv zeta.
    destruct (attempt_outcome env apiKey fetch attempt) as [[|]|e].
    + eexists. split; [simpl snd; rewrite <- !app_assoc; reflexivity|reflexivity].
    + match goal with |- context [validate_loop _ _ _ _ ?a ?t] =>
          destruct (IH a t) as (l & Hl & Hv) end.
      eexists. split; [rewrite Hl; rewrite <- !app_assoc; reflexivity|]. exact Hv.
    + destruct (is_AuthenticationError e || is_ConnectionError e
                || Nat.leb MAX_API_RETRIES attempt).
      * eexists. split; [simpl snd; rewrite <- !app_assoc; reflexivity|reflexivity].
      * match goal with |- context [validate_loop _ _ _ _ ?a ?t] =>
          destruct (IH a t) as (l & Hl & Hv) end.
        eexists. split; [rewrite Hl; rewrite <- !app_assoc; reflexivity|]. exact Hv.
Qed.

Lemma validateApiKey_events : forall tr,
  exists l, snd (validateApiKey env fetch apiKey tr) = (tr ++ l)%list
    /\ forallb is_validation_event l = true.
Proof.
  intros tr. unfold validateApiKey.
  destruct (String.eqb apiKey "" || String.eqb (trim apiKey) "").
  - exists []. simpl. rewrite app_nil_r. split; reflexivity.
  - apply validate_loop_events.
Qed.

Lemma validate_loop_counts : forall fuel attempt tr,
  (attempt + S fuel = S MAX_API_RETRIES)%nat ->
  exists l, snd (validate_loop env apiKey fetch (S fuel) attempt tr) = (tr ++ l)%list
    /\ timers_set l = fetches l /\ timers_cleared l = fetches l
    /\ sleeps l + 1 = fetches l /\ (fetches l <= S fuel)%nat.
Proof.
  unfold timers_set, timers_cleared, sleeps, count_events, fetches.
  induction fuel as [|fuel IH]; intros attempt tr Ha;
    rewrite validate_loop_step; cbv zeta;
    pose proof (attempt_outcome_not_false attempt) as Hnf;
    destruct (attempt_outcome env apiKey fetch attempt) as [[|]|e];
    try congruence.
  - eexists. split; [simpl snd; rewrite <- !app_assoc; reflexivity|]. simpl. lia.
  - assert (Nat.leb MAX_API_RETRIES attempt = true) as Hl
      by (apply Nat.leb_le; unfold MAX_API_RETRIES in *; lia).
    rewrite Hl, orb_true_r.
    eexists. split; [simpl snd; rewrite <- !app_assoc; reflexivity|]. simpl. lia.
  - eexists. split; [simpl snd; rewrite <- !app_assoc; reflexivity|]. simpl. lia.
  - destruct (is_AuthenticationError e || is_ConnectionError e
              || Nat.leb MAX_API_RETRIES attempt).
    + eexists. split; [simpl snd; rewrite <- !app_assoc; reflexivity|]. simpl. lia.
    + match goal with |- context [validate_loop _ _ _ _ ?a ?t] =>
          destruct (IH a t ltac:(lia)) as (l & Hl & H1 & H2 & H3 & H4) end.
      eexists. split; [rewrite Hl; rewrite <- !app_assoc; reflexivity|].
      simpl. lia.
Qed.

Lemma validate_loop_error_kinds : forall fuel attempt tr,
  error_kind_ok env apiKey (fst (validate_loop env apiKey fetch fuel attempt tr)).
Proof.
  induction fuel as [|fuel IH]; intros attempt tr; [exact I|].
  rewrite validate_loop_step. cbv zeta.
  destruct (attempt_outcome_cases env apiKey fetch attempt) as [E|[[m E]|[m E]]];
    rewrite E.
  - exact I.
  - simpl. split; reflexivity.
  - destruct (Nat.leb MAX_API_RETRIES attempt).
    + unfold after_catch. simpl. repeat split.
    + apply IH.
Qed.

Lemma validateApiKey_error_kinds_aux : forall tr,
  error_kind_ok env apiKey (fst (validateApiKey env fetch apiKey tr)).
Proof.
  intros tr. unfold validateApiKey.
  destruct (String.eqb apiKey "" || String.eqb (trim apiKey) "").
  - simpl. split; reflexivity.
  - apply validate_loop_error_kinds.
Qed.

Lemma attempt_outcome_json : forall attempt r data,
  fetch attempt = FetchResolve r -> ok r = true -> body r = BodyJson data ->
  attempt_outcome env apiKey fetch attempt =
    if negb (isSubscriptionResponse data) then
      Throw (AuthenticationError "Invalid response format from license server" apiKey "")
    else if negb (data_isFound data) then
      Throw (AuthenticationError
               "Provided API key was not found. Please make sure 'apiKey' is set properly in your workflow."
               apiKey "")
    else if Nat.eqb (length (data_subscriptions data)) 0 then
      Throw (AuthenticationError
               "No active subscription found for the provided API key." apiKey "")
    else Ok true.
Proof.
  intros attempt r data Hf Hok Hb. unfold attempt_outcome, attempt_try, bind, emit.
  simpl. rewrite Hf. simpl. rewrite Hok, Hb. simpl.
  destruct (negb (isSubscriptionResponse data)); [reflexivity|].
  destruct (negb (data_isFound data)); [reflexivity|].
  destruct (Nat.eqb (length (data_subscriptions data)) 0); reflexivity.
Qed.

(** The loop stops at attempt [n] when the earlier attempts failed in a
    retryable way and attempt [n] succeeds or is refused. *)
Lemma validate_stops_at : forall n,
  (1 <= n <= 3)%nat ->
  (forall k, (1 <= k < n)%nat -> retry_message (fetch k) <> None) ->
  (attempt_outcome env apiKey fetch n = Ok true \/
   exists m, attempt_outcome env apiKey fetch n = Throw (AuthenticationError m apiKey "")) ->
  fst (validate_loop env apiKey fetch 3 1 []) =
    match attempt_outcome env apiKey fetch n with Ok _ => Ok tt | Throw e => Throw e end
  /\ fetches (snd (validate_loop env apiKey fetch 3 1 [])) = n.
Proof.
  intros n Hn Hprev Hfin.
  destruct n as [|[|[|[|n]]]]; try lia.
  - rewrite validate_loop_step.
    destruct Hfin as [E|[m E]]; rewrite E; split; reflexivity.
  - destruct (attempt_outcome_retry_ex env apiKey fetch 1 (Hprev 1 ltac:(lia))) as [m1 E1].
    rewrite validate_loop_step, E1. cbn -[validate_loop attempt_outcome].
    rewrite validate_loop_step.
    destruct Hfin as [E|[m E]]; rewrite E; split; reflexivity.
  - destruct (attempt_outcome_retry_ex env apiKey fetch 1 (Hprev 1 ltac:(lia))) as [m1 E1].
    destruct (attempt_outcome_retry_ex env apiKey fetch 2 (Hprev 2 ltac:(lia))) as [m2 E2].
    rewrite validate_loop_step, E1. cbn -[validate_loop attempt_outcome].
    rewrite validate_loop_step, E2. cbn -[validate_loop attempt_outcome].
    rewrite validate_loop_step.
    destruct Hfin as [E|[m E]]; rewrite E; split; reflexivity.
Qed.

End ValidateMore.

Lemma validation_trace_no_sync_call : forall l,
  forallb is_validation_event l = true -> filter is_sync_call l = [].
Proof.
  induction l as [|e l IH]; intros H; [reflexivity|].
  simpl in H. apply andb_prop in H as [He Hl].
  destruct e; try discriminate; simpl; apply IH, Hl.
Qed.

Lemma digits_value_some : forall d acc seen,
  (0 <= acc)%Z -> forallb is_decimal_digit (list_ascii_of_string d) = true ->
  (seen = true \/ d <> "") ->
  exists z, digits_value d acc seen = Some z /\ (0 <= z)%Z.
Proof.
  induction d as [|c d IH]; intros acc seen Ha Hd Hs.
  - destruct Hs as [->|Hs]; [exists acc; split; [reflexivity|exact Ha]|congruence].
  - simpl in Hd. apply andb_prop in Hd as [Hc Hd]. simpl. rewrite Hc.
    apply IH; [lia|exact Hd|left; reflexivity].
Qed.

(** ** Lemmas on the orchestrator: sync calls and licence failures *)

Ltac sync_calls_tac :=
  simpl; repeat rewrite filter_app; simpl; repeat rewrite app_nil_r;
  repeat rewrite <- app_assoc; reflexivity.

Lemma legacy_https_sync_calls : forall tp config dir mode il tr,
  filter is_sync_call (snd (SyncLegacy.synchronizeViaHTTPs tp config dir mode il tr)) =
  (filter is_sync_call tr ++
   if port_falsy (SyncLegacy.symitarAppPort config) then []
   else match ctor_fails tp with
        | Some _ => []
        | None => [EvSyncCall il (SyncLegacy.isDryRun config)]
        end)%list.
Proof.
  intros tp config dir mode il tr. unfold SyncLegacy.synchronizeViaHTTPs.
  destruct (port_falsy (SyncLegacy.symitarAppPort config)); [simpl; sync_calls_tac|].
  unfold construct, bind, emit, try_finally, call_sync, client_end, throw, ret.
  destruct (ctor_fails tp); [simpl; sync_calls_tac|].
  destruct (sync_result tp); destruct (end_fails tp); sync_calls_tac.
Qed.

Lemma legacy_ssh_sync_calls : forall tp config dir mode il tr,
  filter is_sync_call (snd (SyncLegacy.synchronizeViaSSH tp config dir mode il tr)) =
  (filter is_sync_call tr ++
   match ctor_fails tp, ready_fails tp with
   | None, None => [EvSyncCall il (SyncLegacy.isDryRun config)]
   | _, _ => []
   end)%list.
Proof.
  intros tp config dir mode il tr. unfold SyncLegacy.synchronizeViaSSH.
  unfold construct, await_ready, bind, emit, try_finally, call_sync, client_end,
    throw, ret.
  destruct (ctor_fails tp); [simpl; sync_calls_tac|].
  destruct (ready_fails tp); [|destruct (sync_result tp)]; destruct (end_fails tp);
    sync_calls_tac.
Qed.

Lemma sync_https_sync_calls : forall tp config dir mode opts tr,
  filter is_sync_call (snd (Sync.synchronizeViaHTTPs tp config dir mode opts tr)) =
  (filter is_sync_call tr ++
   if port_falsy (Sync.symitarAppPort config) then []
   else match ctor_fails tp with
        | Some _ => []
        | None => [EvSyncCall (Sync.powerOn_installList opts) (Sync.isDryRun config)]
        end)%list.
Proof.
  intros tp config dir mode opts tr. unfold Sync.synchronizeViaHTTPs.
  destruct (port_falsy (Sync.symitarAppPort config)); [simpl; sync_calls_tac|].
  unfold construct, bind, emit, try_finally, call_sync, client_end, throw, ret.
  destruct (ctor_fails tp); [simpl; sync_calls_tac|].
  destruct (sync_result tp); destruct (end_fails tp); sync_calls_tac.
Qed.

Lemma sync_ssh_sync_calls : forall tp config dir mode opts tr,
  filter is_sync_call (snd (Sync.synchronizeViaSSH tp config dir mode opts tr)) =
  (filter is_sync_call tr ++
   match ctor_fails tp, ready_fails tp with
   | None, None => [EvSyncCall (Sync.powerOn_installList opts) (Sync.isDryRun config)]
   | _, _ => []
   end)%list.
Proof.
  intros tp config dir mode opts tr. unfold Sync.synchronizeViaSSH.
  unfold construct, await_ready, bind, emit, try_finally, call_sync, client_end,
    throw, ret.
  destruct (ctor_fails tp); [simpl; sync_calls_tac|].
  destruct (ready_fails tp); [|destruct (sync_result tp)]; destruct (end_fails tp);
    sync_calls_tac.
Qed.

Lemma legacy_sync_calls : forall env fetch tp config,
  filter is_sync_call (snd (SyncLegacy.synchronizeToSymitar env fetch tp config [])) =
  match fst (validateApiKey env fetch (SyncLegacy.apiKey config) []), ctor_fails tp with
  | Ok _, None =>
      let call := [EvSyncCall (getInstallList (SyncLegacy.directoryType config)
                                              (SyncLegacy.installPowerOnList config))
                              (SyncLegacy.isDryRun config)] in
      match SyncLegacy.connectionType config with
      | https => if port_falsy (SyncLegacy.symitarAppPort config) then [] else call
      | ssh => match ready_fails tp with None => call | Some _ => [] end
      end
  | _, _ => []
  end.
Proof.
  intros env fetch tp config.
  rewrite SyncLegacyFacts.legacy_synchronizeToSymitar_unfold.
  destruct (validateApiKey_events env (SyncLegacy.apiKey config) fetch []) as (l & Hl & Hv).
  destruct (validateApiKey env fetch (SyncLegacy.apiKey config) []) as [[u|e] tv];
    simpl in Hl; subst tv.
  - cbv zeta. simpl fst.
    destruct (SyncLegacy.connectionType config).
    + match goal with
      | |- context [SyncLegacy.synchronizeViaHTTPs tp config ?d ?m ?o l] =>
          pose proof (legacy_https_sync_calls tp config d m o l) as Hs;
          destruct (SyncLegacy.synchronizeViaHTTPs tp config d m o l) as [[r|e] tr']
      end;
      simpl snd in Hs |- *; rewrite Hs, (validation_trace_no_sync_call l Hv); simpl;
      destruct (port_falsy (SyncLegacy.symitarAppPort config));
      destruct (ctor_fails tp); reflexivity.
    + match goal with
      | |- context [SyncLegacy.synchronizeViaSSH tp config ?d ?m ?o l] =>
          pose proof (legacy_ssh_sync_calls tp config d m o l) as Hs;
          destruct (SyncLegacy.synchronizeViaSSH tp config d m o l) as [[r|e] tr']
      end;
      simpl snd in Hs |- *; rewrite Hs, (validation_trace_no_sync_call l Hv); simpl;
      destruct (ctor_fails tp); destruct (ready_fails tp); reflexivity.
  - simpl. destruct (ctor_fails tp); apply validation_trace_no_sync_call, Hv.
Qed.

Lemma sync_sync_calls : forall env fetch tp config,
  filter is_sync_call (snd (Sync.synchronizeToSymitar env fetch tp config [])) =
  match fst (validateApiKey env fetch (Sync.apiKey config) []), ctor_fails tp with
  | Ok _, None =>
      let call := [EvSyncCall (getInstallList (Sync.directoryType config)
                                              (Sync.installPowerOnList config))
                              (Sync.isDryRun config)] in
      match Sync.connectionType config with
      | https => if port_falsy (Sync.symitarAppPort config) then [] else call
      | ssh => match ready_fails tp with None => call | Some _ => [] end
      end
  | _, _ => []
  end.
Proof.
  intros env fetch tp config.
  rewrite SyncFacts.synchronizeToSymitar_unfold.
  destruct (validateApiKey_events env (Sync.apiKey config) fetch []) as (l & Hl & Hv).
  destruct (validateApiKey env fetch (Sync.apiKey config) []) as [[u|e] tv];
    simpl in Hl; subst tv.
  - cbv zeta. simpl fst.
    destruct (Sync.connectionType config).
    + match goal with
      | |- context [Sync.synchronizeViaHTTPs tp config ?d ?m ?o l] =>
          pose proof (sync_https_sync_calls tp config d m o l) as Hs;
          destruct (Sync.synchronizeViaHTTPs tp config d m o l) as [[r|e] tr']
      end;
      simpl snd in Hs |- *; rewrite Hs, (validation_trace_no_sync_call l Hv); simpl;
      destruct (port_falsy (Sync.symitarAppPort config));
      destruct (ctor_fails tp); reflexivity.
    + match goal with
      | |- context [Sync.synchronizeViaSSH tp config ?d ?m ?o l] =>
          pose proof (sync_ssh_sync_calls tp config d m o l) as Hs;
          destruct (Sync.synchronizeViaSSH tp config d m o l) as [[r|e] tr']
      end;
      simpl snd in Hs |- *; rewrite Hs, (validation_trace_no_sync_call l Hv); simpl;
      destruct (ctor_fails tp); destruct (ready_fails tp); reflexivity.
  - simpl. destruct (ctor_fails tp); apply validation_trace_no_sync_call, Hv.
Qed.

Lemma legacy_validation_failure : forall env fetch tp config e,
  fst (validateApiKey env fetch (SyncLegacy.apiKey config) []) = Throw e ->
  SyncLegacy.synchronizeToSymitar env fetch tp config [] =
    (Throw e, snd (validateApiKey env fetch (SyncLegacy.apiKey config) [])).
Proof.
  intros env fetch tp config e H.
  rewrite SyncLegacyFacts.legacy_synchronizeToSymitar_unfold.
  destruct (validateApiKey env fetch (SyncLegacy.apiKey config) []) as [[u|e'] tr];
    simpl in H; [discriminate|]. injection H as ->. reflexivity.
Qed.

Lemma sync_validation_failure : forall env fetch tp config e,
  fst (validateApiKey env fetch (Sync.apiKey config) []) = Throw e ->
  Sync.synchronizeToSymitar env fetch tp config [] =
    (Throw e, snd (validateApiKey env fetch (Sync.apiKey config) [])).
Proof.
  intros env fetch tp config e H.
  rewrite SyncFacts.synchronizeToSymitar_unfold.
  destruct (validateApiKey env fetch (Sync.apiKey config) []) as [[u|e'] tr];
    simpl in H; [discriminate|]. injection H as ->. reflexivity.
Qed.



Lemma filter_trim_clean : forall l,
  Forall (fun x => x <> "" /\ trim x = x) l ->
  filter (fun f => Nat.ltb 0 (String.length f)) (map trim l) = l.
Proof.
  induction l as [|x l IH]; intros H; [reflexivity|].
  inversion H as [|? ? [Hx Ht] Hl]; subst. simpl. rewrite Ht.
  destruct x as [|c x]; [congruence|]. simpl. f_equal. apply IH, Hl.
Qed.

(* ================================================================== *)
(** * Properties of the remaining code *)

(** ** directory-config.ts: lookups by name *)


(** X2: a name that is neither one of the four directory types nor a
    property inherited from [Object.prototype] is refused, both by
    [getDirectoryConfig] and by the first check of [run], with the same
    message listing the four valid names in order. *)
Theorem invalid_directory_type_rejected : forall s inp,
  directoryTypeOfString s = None -> ~ In s OBJECT_PROTOTYPE_KEYS ->
  ByName.getDirectoryConfig s =
    Throw (PlainError ("Invalid directory type: " ++ s
             ++ ". Must be one of: powerOns, letterFiles, dataFiles, helpFiles")) /\
  (in_directoryType inp = s ->
   validate_inputs inp =
     Throw (PlainError ("Invalid directory type: " ++ s
              ++ ". Must be one of: powerOns, letterFiles, dataFiles, helpFiles"))).
Proof.
  intros s inp Hn Hk.
  assert (Hv : isValidDirectoryType s = false).
  { unfold isValidDirectoryType. rewrite Hn.
    destruct (existsb (String.eqb s) OBJECT_PROTOTYPE_KEYS) eqn:E; [|reflexivity].
    apply existsb_exists in E as (k & Hin & Hk').
    apply String.eqb_eq in Hk'. subst k. contradiction. }
  split.
  - unfold ByName.getDirectoryConfig. rewrite Hv. reflexivity.
  - intros <-. unfold validate_inputs. cbv zeta. rewrite Hv. reflexivity.
Qed.

Lemma invalid_directory_type_rejected_witness :
  directoryTypeOfString "poweron" = None /\ ~ In "poweron" OBJECT_PROTOTYPE_KEYS /\
  ByName.getDirectoryConfig "poweron" =
    Throw (PlainError ("Invalid directory type: " ++ "poweron"
             ++ ". Must be one of: powerOns, letterFiles, dataFiles, helpFiles")) /\
  (in_directoryType (action_inputs "poweron" "https" "42627" "22") = "poweron" ->
   validate_inputs (action_inputs "poweron" "https" "42627" "22") =
     Throw (PlainError ("Invalid directory type: " ++ "poweron"
              ++ ". Must be one of: powerOns, letterFiles, dataFiles, helpFiles"))).
Proof.
  assert (Hk : ~ In "poweron" OBJECT_PROTOTYPE_KEYS)
    by (simpl; intuition discriminate).
  split; [reflexivity|]. split; [exact Hk|].
  apply (invalid_directory_type_rejected "poweron"
           (action_inputs "poweron" "https" "42627" "22")); [reflexivity|exact Hk].
Defined.




(** ** main.ts: input parsing *)

(** X5: every entry of a comma-separated list input, as parsed by [run],
    is non-empty, already trimmed and free of commas. *)
Theorem parse_list_clean : forall input,
  Forall (fun x => x <> "" /\ trim x = x /\ ~ In ","%char (list_ascii_of_string x))
         (parse_list input).
Proof.
  intros input. unfold parse_list. apply Forall_forall. intros x Hx.
  apply filter_In in Hx as [Hm Hlen]. apply in_map_iff in Hm as (y & <- & Hy).
  split; [|split].
  - intros E. rewrite E in Hlen. discriminate Hlen.
  - apply trim_idem.
  - intros Hc. apply trim_chars in Hc. exact (split_comma_no_comma _ _ Hy Hc).
Qed.

(** X6: joining clean entries with ", " (as [run] does when it logs the
    lists) and parsing the result gives the entries back. *)
Theorem parse_list_join : forall l,
  Forall (fun x => x <> "" /\ trim x = x /\ ~ In ","%char (list_ascii_of_string x)) l ->
  parse_list (String.concat ", " l) = l.
Proof.
  intros [|x l] H; [reflexivity|]. unfold parse_list.
  rewrite split_comma_join
    by (eapply Forall_impl; [|exact H]; intros y Hy; apply Hy).
  change (map trim (x :: map (String " "%char) l))
    with (trim x :: map trim (map (String " "%char) l)).
  rewrite map_map.
  rewrite (map_ext (fun y => trim (String " "%char y)) trim) by apply trim_space_cons.
  change (trim x :: map trim l) with (map trim (x :: l)).
  apply filter_trim_clean.
  eapply Forall_impl; [|exact H]. intros y Hy. split; apply Hy.
Qed.

Lemma parse_list_join_witness :
  Forall (fun x => x <> "" /\ trim x = x /\ ~ In ","%char (list_ascii_of_string x))
         ["FILE1.PO"; "FILE2.PO"] /\
  parse_list (String.concat ", " ["FILE1.PO"; "FILE2.PO"]) = ["FILE1.PO"; "FILE2.PO"].
Proof.
  assert (H : Forall (fun x => x <> "" /\ trim x = x
                               /\ ~ In ","%char (list_ascii_of_string x))
                     ["FILE1.PO"; "FILE2.PO"]).
  { repeat constructor; try discriminate; simpl; intuition discriminate. }
  split; [exact H|]. apply parse_list_join, H.
Defined.

(** X7: [parseInt(s, 10)] as [run] uses it skips leading white space,
    reads an optional sign and stops at the first non-digit: on white
    space, then a run of digits [d], then anything not starting with a
    digit, it gives the value of [d] (negated after a '-'), and that value
    exists and is non-negative. *)
Theorem parseInt10_prefix : forall ws d rest,
  forallb is_js_space (list_ascii_of_string ws) = true ->
  d <> "" -> forallb is_decimal_digit (list_ascii_of_string d) = true ->
  match rest with String c _ => is_decimal_digit c = false | EmptyString => True end ->
  parseInt10 (ws ++ d ++ rest) = parseInt10 d /\
  parseInt10 (ws ++ "+" ++ d ++ rest) = parseInt10 d /\
  parseInt10 (ws ++ "-" ++ d ++ rest) = option_map Z.opp (parseInt10 d) /\
  exists z, parseInt10 d = Some z /\ (0 <= z)%Z.
Proof.
  intros ws d rest Hws Hne Hd Hr.
  assert (Hpd : parseInt10 d = digits_value d 0 false).
  { destruct d as [|c d']; [congruence|].
    simpl in Hd. apply andb_prop in Hd as [Hc _].
    destruct (digit_char_facts c Hc) as (Hs & Hm & Hp).
    unfold parseInt10. simpl. rewrite Hs, Hm, Hp. reflexivity. }
  assert (Hdr : digits_value (d ++ rest) 0 false = digits_value d 0 false)
    by (apply digits_value_app; assumption).
  rewrite Hpd. split; [|split; [|split]].
  - unfold parseInt10. rewrite trim_start_spaces by exact Hws.
    destruct d as [|c d']; [congruence|].
    simpl in Hd. apply andb_prop in Hd as [Hc _].
    destruct (digit_char_facts c Hc) as (Hs & Hm & Hp).
    simpl. rewrite Hs, Hm, Hp. exact Hdr.
  - unfold parseInt10. rewrite trim_start_spaces by exact Hws.
    simpl. exact Hdr.
  - unfold parseInt10. rewrite trim_start_spaces by exact Hws.
    simpl. rewrite Hdr. reflexivity.
  - apply digits_value_some; [lia|exact Hd|right; exact Hne].
Qed.

Lemma parseInt10_prefix_witness :
  forallb is_js_space (list_ascii_of_string " ") = true /\ "22" <> "" /\
  forallb is_decimal_digit (list_ascii_of_string "22") = true /\
  parseInt10 (" " ++ "22" ++ "abc") = parseInt10 "22" /\
  parseInt10 (" " ++ "+" ++ "22" ++ "abc") = parseInt10 "22" /\
  parseInt10 (" " ++ "-" ++ "22" ++ "abc") = option_map Z.opp (parseInt10 "22") /\
  exists z, parseInt10 "22" = Some z /\ (0 <= z)%Z.
Proof.
  split; [reflexivity|]. split; [discriminate|]. split; [reflexivity|].
  apply (parseInt10_prefix " " "22" "abc"); [reflexivity|discriminate|reflexivity|reflexivity].
Defined.



(** ** main.ts: [run] *)







(** ** directory-config.ts: [validateApiKey] *)

(** X12: [validateApiKey] rejects only with an [AuthenticationError]
    that carries the key and an empty host, or with a [ConnectionError]
    naming the licence host on port 443 over SSL; a plain [Error] (a
    network failure, an unreadable body) never escapes it. *)
Theorem validateApiKey_error_kinds : forall env fetch apiKey tr,
  error_kind_ok env apiKey (fst (validateApiKey env fetch apiKey tr)).
Proof. intros env fetch apiKey tr. apply validateApiKey_error_kinds_aux. Qed.

(** X13: every request timer [validateApiKey] sets is cleared: there are
    as many timers set and cleared as fetches, one back-off sleep fewer
    than fetches, at most three fetches, and no fetch at all exactly when
    the key is blank. *)
Theorem validateApiKey_timers_balanced : forall env fetch apiKey,
  let tr := snd (validateApiKey env fetch apiKey []) in
  timers_set tr = fetches tr /\ timers_cleared tr = fetches tr /\
  sleeps tr = fetches tr - 1 /\ (fetches tr <= 3)%nat /\
  (fetches tr = 0 <-> is_blank apiKey = true).
Proof.
  intros env fetch apiKey. cbv zeta. unfold validateApiKey.
  change (String.eqb apiKey "" || String.eqb (trim apiKey) "") with (is_blank apiKey).
  destruct (is_blank apiKey).
  - unfold throw. cbn. repeat split; auto.
  - destruct (validate_loop_counts env apiKey fetch 2 1 [] eq_refl)
      as (l & Hl & H1 & H2 & H3 & H4).
    change MAX_API_RETRIES with 3. rewrite Hl. simpl app.
    repeat split; try lia; intros H; discriminate H.
Qed.

(** X14: when the key is not blank, every attempt before attempt [n]
    failed in a way the loop retries, and attempt [n] (at most the third)
    gets an ok response whose body is a subscription response with
    [isFound] true and a non-empty [subscriptions] array, the key is
    accepted after exactly [n] fetches; the subscriptions' status is not
    looked at. *)
Theorem validateApiKey_accepts_at : forall env fetch apiKey n r data,
  is_blank apiKey = false -> (1 <= n <= 3)%nat ->
  (forall k, (1 <= k < n)%nat -> retry_message (fetch k) <> None) ->
  fetch n = FetchResolve r -> ok r = true -> body r = BodyJson data ->
  isSubscriptionResponse data = true -> data_isFound data = true ->
  data_subscriptions data <> [] ->
  fst (validateApiKey env fetch apiKey []) = Ok tt /\
  fetches (snd (validateApiKey env fetch apiKey [])) = n.
Proof.
  intros env fetch apiKey n r data Hb Hn Hprev Hf Hok Hbody Hs Hfound Hsub.
  assert (Ho : attempt_outcome env apiKey fetch n = Ok true).
  { rewrite (attempt_outcome_json env apiKey fetch n r data Hf Hok Hbody), Hs, Hfound.
    simpl. destruct (Nat.eqb (length (data_subscriptions data)) 0) eqn:E;
      [|reflexivity].
    apply Nat.eqb_eq, length_zero_iff_nil in E. contradiction. }
  destruct (validate_stops_at env apiKey fetch n Hn Hprev (or_introl Ho)) as [H1 H2].
  rewrite Ho in H1. unfold validateApiKey.
  change (String.eqb apiKey "" || String.eqb (trim apiKey) "") with (is_blank apiKey).
  rewrite Hb. split; [exact H1|exact H2].
Qed.

Lemma validateApiKey_accepts_at_witness :
  fst (validateApiKey env_production fetch_cancelled_subscription "test-api-key" []) = Ok tt /\
  fetches (snd (validateApiKey env_production fetch_cancelled_subscription
                  "test-api-key" [])) = 1.
Proof.
  apply (validateApiKey_accepts_at env_production fetch_cancelled_subscription
           "test-api-key" 1 cancelled_response cancelled_data);
    try reflexivity; try lia; try discriminate.
Defined.

(** X15: under the same conditions on the attempts before [n], an ok
    response at attempt [n] whose body is not a subscription response,
    reports the key as not found, or has no subscriptions, ends the loop
    after exactly [n] fetches with the [AuthenticationError] of that case,
    without retrying. *)
Theorem validateApiKey_rejects_body : forall env fetch apiKey n r data,
  is_blank apiKey = false -> (1 <= n <= 3)%nat ->
  (forall k, (1 <= k < n)%nat -> retry_message (fetch k) <> None) ->
  fetch n = FetchResolve r -> ok r = true -> body r = BodyJson data ->
  (isSubscriptionResponse data = false \/ data_isFound data = false \/
   data_subscriptions data = []) ->
  fetches (snd (validateApiKey env fetch apiKey [])) = n /\
  (isSubscriptionResponse data = false ->
   fst (validateApiKey env fetch apiKey []) =
     Throw (AuthenticationError "Invalid response format from license server" apiKey "")) /\
  (isSubscriptionResponse data = true -> data_isFound data = false ->
   fst (validateApiKey env fetch apiKey []) =
     Throw (AuthenticationError
              "Provided API key was not found. Please make sure 'apiKey' is set properly in your workflow."
              apiKey "")) /\
  (isSubscriptionResponse data = true -> data_isFound data = true ->
   data_subscriptions data = [] ->
   fst (validateApiKey env fetch apiKey []) =
     Throw (AuthenticationError
              "No active subscription found for the provided API key." apiKey "")).
Proof.
  intros env fetch apiKey n r data Hb Hn Hprev Hf Hok Hbody Hbad.
  pose proof (attempt_outcome_json env apiKey fetch n r data Hf Hok Hbody) as Hj.
  assert (Hfin : attempt_outcome env apiKey fetch n = Ok true \/
                 exists m, attempt_outcome env apiKey fetch n
                           = Throw (AuthenticationError m apiKey "")).
  { rewrite Hj. destruct (negb (isSubscriptionResponse data));
      [right; eexists; reflexivity|].
    destruct (negb (data_isFound data)); [right; eexists; reflexivity|].
    destruct (Nat.eqb (length (data_subscriptions data)) 0);
      [right; eexists; reflexivity|left; reflexivity]. }
  destruct (validate_stops_at env apiKey fetch n Hn Hprev Hfin) as [H1 H2].
  rewrite Hj in H1. unfold validateApiKey.
  change (String.eqb apiKey "" || String.eqb (trim apiKey) "") with (is_blank apiKey).
  rewrite Hb. split; [exact H2|]. split; [|split].
  - intros Hs. rewrite Hs in H1. exact H1.
  - intros Hs Hfd. rewrite Hs, Hfd in H1. exact H1.
  - intros Hs Hfd He. rewrite Hs, Hfd, He in H1. exact H1.
Qed.

Lemma validateApiKey_rejects_body_witness :
  fetches (snd (validateApiKey env_production fetch_retry_then_not_found
                  "test-api-key" [])) = 2 /\
  fst (validateApiKey env_production fetch_retry_then_not_found "test-api-key" []) =
    Throw (AuthenticationError
             "Provided API key was not found. Please make sure 'apiKey' is set properly in your workflow."
             "test-api-key" "").
Proof.
  destruct (validateApiKey_rejects_body env_production fetch_retry_then_not_found
              "test-api-key" 2 not_found_response not_found_data)
    as (H1 & _ & H3 & _);
    try reflexivity; try lia.
  - intros k Hk. assert (k = 1) as -> by lia. discriminate.
  - right. left. reflexivity.
  - split; [exact H1|]. apply H3; reflexivity.
Defined.

(** ** synchronize.ts: both revisions *)

(** X16: in both revisions the library's sync call is made at most once,
    and exactly when the licence check passed, the client was constructed,
    and (HTTPS) the app port is set or (SSH) [isReady] resolved; it then
    receives [getInstallList] of the configured list and the dry-run
    flag. *)
Theorem sync_call_conditions :
  (forall env fetch tp config,
    filter is_sync_call (snd (SyncLegacy.synchronizeToSymitar env fetch tp config [])) =
    match fst (validateApiKey env fetch (SyncLegacy.apiKey config) []), ctor_fails tp with
    | Ok _, None =>
        let call := [EvSyncCall (getInstallList (SyncLegacy.directoryType config)
                                                (SyncLegacy.installPowerOnList config))
                                (SyncLegacy.isDryRun config)] in
        match SyncLegacy.connectionType config with
        | https => if port_falsy (SyncLegacy.symitarAppPort config) then [] else call
        | ssh => match ready_fails tp with None => call | Some _ => [] end
        end
    | _, _ => []
    end) /\
  (forall env fetch tp config,
    filter is_sync_call (snd (Sync.synchronizeToSymitar env fetch tp config [])) =
    match fst (validateApiKey env fetch (Sync.apiKey config) []), ctor_fails tp with
    | Ok _, None =>
        let call := [EvSyncCall (getInstallList (Sync.directoryType config)
                                                (Sync.installPowerOnList config))
                                (Sync.isDryRun config)] in
        match Sync.connectionType config with
        | https => if port_falsy (Sync.symitarAppPort config) then [] else call
        | ssh => match ready_fails tp with None => call | Some _ => [] end
        end
    | _, _ => []
    end).
Proof. split; [exact legacy_sync_calls|exact sync_sync_calls]. Qed.

(** X17: in both revisions, when the licence check rejects the key,
    [synchronizeToSymitar] rejects with the same error and its trace is
    the licence check's trace alone: no client, no sync call, no [end]. *)
Theorem licence_failure_stops_sync :
  (forall env fetch tp config e,
    fst (validateApiKey env fetch (SyncLegacy.apiKey config) []) = Throw e ->
    SyncLegacy.synchronizeToSymitar env fetch tp config [] =
      (Throw e, snd (validateApiKey env fetch (SyncLegacy.apiKey config) [])) /\
    forallb is_validation_event
      (snd (validateApiKey env fetch (SyncLegacy.apiKey config) [])) = true) /\
  (forall env fetch tp config e,
    fst (validateApiKey env fetch (Sync.apiKey config) []) = Throw e ->
    Sync.synchronizeToSymitar env fetch tp config [] =
      (Throw e, snd (validateApiKey env fetch (Sync.apiKey config) [])) /\
    forallb is_validation_event
      (snd (validateApiKey env fetch (Sync.apiKey config) [])) = true).
Proof.
  split.
  - intros env fetch tp config e H. split; [apply legacy_validation_failure, H|].
    destruct (validateApiKey_events env (SyncLegacy.apiKey config) fetch [])
      as (l & Hl & Hs).
    rewrite Hl. exact Hs.
  - intros env fetch tp config e H. split; [apply sync_validation_failure, H|].
    destruct (validateApiKey_events env (Sync.apiKey config) fetch [])
      as (l & Hl & Hs).
    rewrite Hl. exact Hs.
Qed.

Lemma licence_failure_stops_sync_witness :
  SyncLegacy.synchronizeToSymitar env_production fetch_401
      (transport_with legacy_response None)
      (legacy_config letterFiles ssh None "test-api-key") [] =
    (Throw (AuthenticationError "Failed to validate API key: 401 Unauthorized"
                                "test-api-key" ""),
     snd (validateApiKey env_production fetch_401 "test-api-key" [])) /\
  Sync.synchronizeToSymitar env_production fetch_401
      (transport_with sync_response None)
      (sync_config letterFiles ssh None "test-api-key") [] =
    (Throw (AuthenticationError "Failed to validate API key: 401 Unauthorized"
                                "test-api-key" ""),
     snd (validateApiKey env_production fetch_401 "test-api-key" [])).
Proof.
  split.
  - apply (proj1 licence_failure_stops_sync env_production fetch_401
             (transport_with legacy_response None)
             (legacy_config letterFiles ssh None "test-api-key")).
    vm_compute. reflexivity.
  - apply (proj2 licence_failure_stops_sync env_production fetch_401
             (transport_with sync_response None)
             (sync_config letterFiles ssh None "test-api-key")).
    vm_compute. reflexivity.
Defined.

